(** * MECAZON teacher server: the connection and model registries

    A shallow embedding of [server.js] (the second part of
    [src/models/Product.js], lines 22-248) and of the product schema (its first
    part, lines 1-21).

    The two module-level caches [connections] and [models] are object
    literals used as maps.  A property read [o[k]] on such an object first
    looks for an own property and then follows the prototype chain to
    [Object.prototype]; the embedding keeps both layers.  Every [await] of the
    source is a point where the running call is suspended and other calls may
    run; the calls are therefore given as small state machines, and the
    sequential functions [getConnection] and [getModel] are what one call
    computes when nothing else runs in between.

    [console.log] output is not modelled. *)

From Stdlib Require Import Ascii String QArith.
Close Scope Q_scope.
From stdpp Require Import base option list gmap strings pretty.

Local Open Scope string_scope.
Set Warnings "-register-all".

(** ** Values *)

(** [productSchema], lines 5-19: the declared paths and the schema options. *)
Inductive SchemaType := TString | TNumber.

Record SchemaPath := {
  path_type : SchemaType;
  path_required : bool;
  path_trim : bool;
  path_min : option Q
}.

Record Schema := {
  paths : list (string * SchemaPath);
  timestamps : bool
}.

Definition productSchema : Schema := {|
  paths :=
    [ ("name",  {| path_type := TString; path_required := true;
                   path_trim := true;  path_min := None |});
      ("price", {| path_type := TNumber; path_required := true;
                   path_trim := false; path_min := Some (0 # 1)%Q |}) ];
  timestamps := true
|}.

(** A connection handle: [conn_id] is the number of the
    [mongoose.createConnection] call that produced it. *)
Record Connection := {
  conn_id : nat;
  conn_uri : string
}.

(** A compiled model: [model_id] is the number of the [connection.model] call
    that produced it; the other fields are that call's receiver and
    arguments. *)
Record Model := {
  model_id : nat;
  model_connection : Connection;
  model_name : string;
  model_schema : Schema;
  model_collection : string
}.

(** The JavaScript values that flow through the registries. *)
Inductive Value :=
| VUndefined
| VString (s : string)
| VBuiltin (name : string)      (* the member [name] of [Object.prototype] *)
| VConnection (c : Connection)
| VModel (m : Model).

(** JavaScript truthiness, as used by [!x]. *)
Definition truthy (v : Value) : bool :=
  match v with
  | VUndefined => false
  | VString s => negb (String.eqb s "")
  | VBuiltin _ | VConnection _ | VModel _ => true
  end.

(** The property names of [Object.prototype]; each is a function, or for
    [__proto__] the prototype object itself. *)
Definition object_prototype : list string :=
  [ "constructor"; "__defineGetter__"; "__defineSetter__"; "hasOwnProperty";
    "__lookupGetter__"; "__lookupSetter__"; "isPrototypeOf";
    "propertyIsEnumerable"; "toString"; "valueOf"; "__proto__";
    "toLocaleString" ].

Definition inherited (k : string) : bool :=
  existsb (String.eqb k) object_prototype.

(** [o[k]] on an object literal [o]: own property, else inherited member,
    else [undefined]. *)
Definition js_get (o : gmap string Value) (k : string) : Value :=
  match o !! k with
  | Some v => v
  | None => if inherited k then VBuiltin k else VUndefined
  end.

(** ** Errors and outcomes *)

Inductive Error :=
| UnconfiguredDatabase (dbName : string)
    (* line 57: Error, No URI mapped for database *)
| UnknownCollection (collectionName : string)
    (* line 101: Error, No schema defined for collection *)
| ReferenceError (identifier : string)
    (* lines 95 and 98: the identifier is not defined *)
| TypeError (callee : string)
    (* line 104: the callee is not a function *)
| ConnectionError (attempt : nat) (uri : string)
    (* line 64: the promise of createConnection is rejected *)
| MongooseError (what : string)
    (* line 64: createConnection is given something that is no string *)
| ValidationError (path : string)
| DriverError (what : string).

Inductive Outcome :=
| Returned (v : Value)
| Thrown (e : Error).

(** ** Environment and state *)

(** What the process is started with: the two variables read on lines 44-45,
    and the behaviour of the world outside the process. *)
Record Env := {
  MONGO_CLIENT_URI : option string;
  MONGO_SERVER_URI : option string;
  (** whether the [attempt]-th connection attempt, made at [uri], succeeds *)
  endpoint : nat -> string -> bool;
  (** the identity generated for the [n]-th inserted document *)
  objectId : nat -> string;
  (** what [estimatedDocumentCount] answers for a model; [None] is a failure *)
  estimatedDocumentCount : Model -> option nat
}.

Definition env_value (x : option string) : Value :=
  match x with
  | Some s => VString s
  | None => VUndefined
  end.

(** Lines 43-46. *)
Definition uriMap (env : Env) : gmap string Value :=
  <[ "ProductsDB" := env_value (MONGO_CLIENT_URI env) ]>
  (<[ "UsersEmployeesDB" := env_value (MONGO_SERVER_URI env) ]> ∅).

(** JSON values of request bodies and stored documents.  A number is the
    exact rational value of the double it stands for. *)
Inductive Json :=
| JNull
| JBool (b : bool)
| JNumber (q : Q)
| JString (s : string)
| JArray (items : list Json)
| JObject (members : list (string * Json)).

Record Document := {
  doc_id : string;
  doc_fields : list (string * Json)
}.

(** The process state: the two caches of lines 49-50, the number of
    [createConnection] and [connection.model] calls made so far, and, outside
    the process, the documents held by the servers, by URI and collection
    name, with the number of identities generated so far. *)
Record World := {
  connections : gmap string Value;
  models : gmap string Value;
  opened : nat;
  compiled : nat;
  stored : gmap (string * string) (list Document);
  generated : nat
}.

Definition init : World := {|
  connections := ∅; models := ∅; opened := 0; compiled := 0;
  stored := ∅; generated := 0
|}.

Definition set_connections (f : gmap string Value -> gmap string Value) (w : World) : World :=
  {| connections := f (connections w); models := models w; opened := opened w;
     compiled := compiled w; stored := stored w; generated := generated w |}.

Definition set_models (f : gmap string Value -> gmap string Value) (w : World) : World :=
  {| connections := connections w; models := f (models w); opened := opened w;
     compiled := compiled w; stored := stored w; generated := generated w |}.

Definition set_opened (n : nat) (w : World) : World :=
  {| connections := connections w; models := models w; opened := n;
     compiled := compiled w; stored := stored w; generated := generated w |}.

Definition set_compiled (n : nat) (w : World) : World :=
  {| connections := connections w; models := models w; opened := opened w;
     compiled := n; stored := stored w; generated := generated w |}.

Definition set_stored
  (f : gmap (string * string) (list Document) -> gmap (string * string) (list Document))
  (g : nat) (w : World) : World :=
  {| connections := connections w; models := models w; opened := opened w;
     compiled := compiled w; stored := f (stored w); generated := g |}.

(** ** The connection registry *)

Section Registry.

Variable env : Env.

(** Modelled from the spec: [mongoose.createConnection], a function of the
    mongoose library, which is not part of the repository; this is what the
    [await] of line 64 settles to.  Section 4.1 has the registry establish a
    new Connection, and fail with [ConnectionError] when the underlying
    endpoint cannot be reached or authenticated: [endpoint env] says which of
    the two the attempt meets.  The first branch, the handle of this attempt,
    is what the library yields in each of its versions once the connection
    is open.  The second branch is the specification's: whether the awaited
    value is rejected when the endpoint is down is decided by the library
    (its version 5 rejects; later versions hand out the handle at once), and
    the source fixes no version. *)
Definition createConnection (attempt : nat) (DB_URI : Value) : Outcome :=
  match DB_URI with
  | VString uri =>
      if endpoint env attempt uri
      then Returned (VConnection {| conn_id := attempt; conn_uri := uri |})
      else Thrown (ConnectionError attempt uri)
  | _ => Thrown (MongooseError "uri")
  end.

(** Lines 54-64, up to the [await]: either the call settles at once, or it
    has issued a connection attempt and is suspended on it. *)
Definition getConnection_enter (w : World) (dbName : string)
  : World * (nat * Value + Outcome) :=
  if negb (truthy (js_get (uriMap env) dbName)) then
    (w, inr (Thrown (UnconfiguredDatabase dbName)))
  else if negb (truthy (js_get (connections w) dbName)) then
    let DB_URI := js_get (uriMap env) dbName in
    (set_opened (S (opened w)) w, inl (opened w, DB_URI))
  else
    (w, inr (Returned (js_get (connections w) dbName))).

(** Lines 64-74, from the [await] on: the attempt has settled. *)
Definition getConnection_resume (w : World) (dbName : string)
  (attempt : nat) (DB_URI : Value) : World * Outcome :=
  match createConnection attempt DB_URI with
  | Returned c =>
      let w' := set_connections <[ dbName := c ]> w in
      (w', Returned (js_get (connections w') dbName))
  | Thrown e => (w, Thrown e)
  end.

(** One call of [getConnection] with nothing running in between. *)
Definition getConnection (w : World) (dbName : string) : World * Outcome :=
  match getConnection_enter w dbName with
  | (w1, inl (attempt, DB_URI)) => getConnection_resume w1 dbName attempt DB_URI
  | (w1, inr o) => (w1, o)
  end.

(** ** The model registry *)

(** Line 81. *)
Definition modelKey (dbName collectionName : string) : string :=
  dbName +:+ "-" +:+ collectionName.

(** The [switch] of lines 90-102.  [userSchema] and [employeeSchema] are
    declared nowhere (lines 39-40 are comments), so reading them throws. *)
Definition switch_schema (collectionName : string) : Error + Schema :=
  if String.eqb collectionName "Products" then inr productSchema
  else if String.eqb collectionName "Users" then inl (ReferenceError "userSchema")
  else if String.eqb collectionName "Employees" then inl (ReferenceError "employeeSchema")
  else inl (UnknownCollection collectionName).

(** [connection.model(name, schema, collection)], line 104: a connection
    compiles a new model; any other receiver has no [model] method. *)
Definition connection_model (w : World) (connection : Value)
  (name : string) (schema : Schema) (collection : string) : World * Outcome :=
  match connection with
  | VConnection c =>
      (set_compiled (S (compiled w)) w,
       Returned (VModel {| model_id := compiled w; model_connection := c;
                           model_name := name; model_schema := schema;
                           model_collection := collection |}))
  | _ => (w, Thrown (TypeError "connection.model"))
  end.

(** Lines 86-110, from the [await] on: [getConnection] has settled. *)
Definition getModel_resume (w : World) (dbName collectionName : string)
  (settled : Outcome) : World * Outcome :=
  match settled with
  | Thrown e => (w, Thrown e)
  | Returned connection =>
      match switch_schema collectionName with
      | inl e => (w, Thrown e)
      | inr schema =>
          match connection_model w connection collectionName schema collectionName with
          | (w1, Returned m) =>
              let w2 := set_models <[ modelKey dbName collectionName := m ]> w1 in
              (w2, Returned (js_get (models w2) (modelKey dbName collectionName)))
          | (w1, Thrown e) => (w1, Thrown e)
          end
      end
  end.

(** One call of [getModel] with nothing running in between. *)
Definition getModel (w : World) (dbName collectionName : string) : World * Outcome :=
  if negb (truthy (js_get (models w) (modelKey dbName collectionName))) then
    let '(w1, settled) := getConnection w dbName in
    getModel_resume w1 dbName collectionName settled
  else
    (w, Returned (js_get (models w) (modelKey dbName collectionName))).

(** ** Calls in flight *)

(** A call of [getConnection]: not yet started, suspended on line 64, or
    settled. *)
Inductive ConnectionCall :=
| ConnEnter (dbName : string)
| ConnAwait (dbName : string) (attempt : nat) (DB_URI : Value)
| ConnSettled (o : Outcome).

(** A call of [getModel]: not yet started, suspended on line 86 on the call
    of [getConnection] it made, or settled. *)
Inductive ModelCall :=
| ModelEnter (dbName collectionName : string)
| ModelAwait (dbName collectionName : string) (inner : ConnectionCall)
| ModelSettled (o : Outcome).

(** Runs a call of [getConnection] up to its next [await] or its end. *)
Definition step_connection (w : World) (c : ConnectionCall) : World * ConnectionCall :=
  match c with
  | ConnEnter dbName =>
      match getConnection_enter w dbName with
      | (w1, inl (attempt, DB_URI)) => (w1, ConnAwait dbName attempt DB_URI)
      | (w1, inr o) => (w1, ConnSettled o)
      end
  | ConnAwait dbName attempt DB_URI =>
      let '(w1, o) := getConnection_resume w dbName attempt DB_URI in
      (w1, ConnSettled o)
  | ConnSettled _ => (w, c)
  end.

(** Runs a call of [getModel] up to its next [await] or its end.  Calling
    [getConnection] runs that function up to its first [await] at once; the
    continuation after line 86 runs in a later turn than the one that settles
    the inner call. *)
Definition step_model (w : World) (m : ModelCall) : World * ModelCall :=
  match m with
  | ModelEnter dbName collectionName =>
      if negb (truthy (js_get (models w) (modelKey dbName collectionName))) then
        let '(w1, inner) := step_connection w (ConnEnter dbName) in
        (w1, ModelAwait dbName collectionName inner)
      else
        (w, ModelSettled (Returned (js_get (models w) (modelKey dbName collectionName))))
  | ModelAwait dbName collectionName (ConnSettled o) =>
      let '(w1, r) := getModel_resume w dbName collectionName o in
      (w1, ModelSettled r)
  | ModelAwait dbName collectionName inner =>
      let '(w1, inner') := step_connection w inner in
      (w1, ModelAwait dbName collectionName inner')
  | ModelSettled _ => (w, m)
  end.

Inductive Task :=
| TConnection (c : ConnectionCall)
| TModel (m : ModelCall).

Definition step_task (w : World) (t : Task) : World * Task :=
  match t with
  | TConnection c => let '(w1, c') := step_connection w c in (w1, TConnection c')
  | TModel m => let '(w1, m') := step_model w m in (w1, TModel m')
  end.

(** The scheduler resumes the [i]-th call of the pool; a number that names
    no call does nothing. *)
Definition step_pool (s : World * list Task) (i : nat) : World * list Task :=
  match s.2 !! i with
  | Some t => let '(w1, t') := step_task s.1 t in (w1, <[ i := t' ]> s.2)
  | None => s
  end.

(** A schedule names the call that gets each turn.  The event loop runs the
    continuation of a call right after the turn that settled what the call
    awaited; schedules of that shape are the ones it can produce. *)
Definition run (s : World * list Task) (schedule : list nat) : World * list Task :=
  fold_left step_pool schedule s.

End Registry.

(** ** Accessor operations

    [Model.find], [Model.create], [Model.insertMany],
    [Model.findByIdAndDelete] and [Model.findByIdAndUpdate] belong to the
    mongoose library and are not part of the repository.  They are given
    here as the specification's section 4.3 describes them, over the schema
    the source declares. *)

Fixpoint assoc (k : string) (l : list (string * Json)) : option Json :=
  match l with
  | [] => None
  | (k', v) :: l' => if String.eqb k' k then Some v else assoc k l'
  end.

(** [j.k] or [j[k]] for a JSON value; [None] is [undefined]. *)
Definition json_member (j : Json) (k : string) : option Json :=
  match j with
  | JObject members => assoc k members
  | _ => None
  end.

Definition members_of (j : Json) : list (string * Json) :=
  match j with
  | JObject members => members
  | _ => []
  end.

Definition json_truthy (v : option Json) : bool :=
  match v with
  | None | Some JNull => false
  | Some (JBool b) => b
  | Some (JNumber q) => negb (Qeq_bool q 0)
  | Some (JString s) => negb (String.eqb s "")
  | Some (JArray _) | Some (JObject _) => true
  end.

(** [String.prototype.trim], over the blanks of ASCII. *)
Fixpoint trim_start (s : string) : string :=
  match s with
  | String a s' => if Ascii.is_space a then trim_start s' else s
  | EmptyString => EmptyString
  end.

Fixpoint trim_end (s : string) : string :=
  match s with
  | EmptyString => EmptyString
  | String a s' =>
      match trim_end s' with
      | EmptyString => if Ascii.is_space a then EmptyString else String a EmptyString
      | t => String a t
      end
  end.

Definition trim (s : string) : string := trim_end (trim_start s).

Fixpoint schema_path (k : string) (l : list (string * SchemaPath)) : option SchemaPath :=
  match l with
  | [] => None
  | (k', p) :: l' => if String.eqb k' k then Some p else schema_path k l'
  end.

(** Modelled from the spec: mongoose's validation of one path, absent from
    the repository.  Section 3 gives a contract "a required field set with
    per-field type and validation rules (e.g., required, minimum value,
    trimming)". *)
Definition path_ok (p : SchemaPath) (v : option Json) : bool :=
  match v with
  | None | Some JNull => negb (path_required p)
  | Some (JString _) =>
      match path_type p with TString => true | TNumber => false end
  | Some (JNumber q) =>
      match path_type p with
      | TNumber => match path_min p with Some m => Qle_bool m q | None => true end
      | TString => false
      end
  | Some _ => false
  end.

(** Modelled from the spec: mongoose's document validation, absent from the
    repository; the first path of the contract that the record breaks. *)
Fixpoint first_broken (l : list (string * SchemaPath)) (record : Json) : option string :=
  match l with
  | [] => None
  | (k, p) :: l' =>
      if path_ok p (json_member record k) then first_broken l' record else Some k
  end.

Definition validate (s : Schema) (record : Json) : option string :=
  first_broken (paths s) record.

(** Modelled from the spec: mongoose's setters, absent from the repository;
    the "trimming" of section 3 applied to the members of a record. *)
Definition cast_member (s : Schema) (kv : string * Json) : string * Json :=
  match schema_path (fst kv) (paths s), snd kv with
  | Some p, JString x => (fst kv, JString (if path_trim p then trim x else x))
  | _, v => (fst kv, v)
  end.

Definition cast (s : Schema) (record : Json) : list (string * Json) :=
  map (cast_member s) (members_of record).

(** Where the documents of a model live: the endpoint of its connection and
    its collection name. *)
Definition collection_of (m : Model) : string * string :=
  (conn_uri (model_connection m), model_collection m).

Definition documents (w : World) (m : Model) : list Document :=
  default [] (stored w !! collection_of m).

Fixpoint find_by_id (id : string) (l : list Document) : option Document :=
  match l with
  | [] => None
  | d :: l' => if String.eqb (doc_id d) id then Some d else find_by_id id l'
  end.

Fixpoint remove_by_id (id : string) (l : list Document) : list Document :=
  match l with
  | [] => []
  | d :: l' => if String.eqb (doc_id d) id then l' else d :: remove_by_id id l'
  end.

Fixpoint replace_by_id (d' : Document) (l : list Document) : list Document :=
  match l with
  | [] => []
  | d :: l' =>
      if String.eqb (doc_id d) (doc_id d') then d' :: l' else d :: replace_by_id d' l'
  end.

(** [$set]: the members of the update replace or extend those of the document. *)
Fixpoint set_members (update fields : list (string * Json)) : list (string * Json) :=
  match update with
  | [] => fields
  | (k, v) :: update' =>
      set_members update'
        (match assoc k fields with
         | Some _ => map (fun kv => if String.eqb (fst kv) k then (k, v) else kv) fields
         | None => (fields ++ [(k, v)])%list
         end)
  end.

Section Accessor.

Variable env : Env.

(** Modelled from the spec: mongoose's [Model.find({}).lean()], absent from
    the repository; section 4.3, [listAll]: the full collection. *)
Definition listAll (w : World) (m : Model) : list Document := documents w m.

(** Modelled from the spec: mongoose's [Model.create], absent from the
    repository; section 4.3, [insertOne]: "validates record against the
    structural contract before persisting; fails with ValidationError (do not
    persist)". *)
Definition insertOne (w : World) (m : Model) (record : Json) : World * (Error + Document) :=
  match validate (model_schema m) record with
  | Some path => (w, inl (ValidationError path))
  | None =>
      let d := {| doc_id := objectId env (generated w);
                  doc_fields := cast (model_schema m) record |} in
      (set_stored <[ collection_of m := (documents w m ++ [d])%list ]> (S (generated w)) w, inr d)
  end.

Fixpoint insert_each (w : World) (m : Model) (records : list Json)
  : World * (Error + list Document) :=
  match records with
  | [] => (w, inr [])
  | r :: records' =>
      match insertOne w m r with
      | (w1, inr d) =>
          match insert_each w1 m records' with
          | (w2, inr ds) => (w2, inr (d :: ds))
          | (w2, inl e) => (w2, inl e)
          end
      | (w1, inl e) => (w1, inl e)
      end
  end.

Fixpoint first_invalid (s : Schema) (records : list Json) : option string :=
  match records with
  | [] => None
  | r :: records' =>
      match validate s r with
      | Some path => Some path
      | None => first_invalid s records'
      end
  end.

(** Modelled from the spec: mongoose's [Model.insertMany], absent from the
    repository; section 4.3, [insertMany]: all or nothing. *)
Definition insertMany (w : World) (m : Model) (records : list Json)
  : World * (Error + list Document) :=
  match first_invalid (model_schema m) records with
  | Some path => (w, inl (ValidationError path))
  | None => insert_each w m records
  end.

(** Modelled from the spec: mongoose's [Model.findByIdAndDelete], absent
    from the repository; section 4.3, [deleteById]: "returns false (not an
    error) when no record with that identity exists".  [None] is the [null]
    the handler tests. *)
Definition deleteById (w : World) (m : Model) (id : string) : World * option Document :=
  match find_by_id id (documents w m) with
  | Some d =>
      (set_stored <[ collection_of m := remove_by_id id (documents w m) ]> (generated w) w,
       Some d)
  | None => (w, None)
  end.

(** Modelled from the spec: mongoose's [Model.findByIdAndUpdate] with
    [runValidators], absent from the repository; section 4.3, [updateById]:
    "merges partialFields into the existing record, re-validates against the
    structural contract, returns not-found (not an error) if the identity
    does not exist". *)
Definition updateById (w : World) (m : Model) (id : string) (update : Json)
  : World * (Error + option Document) :=
  match find_by_id id (documents w m) with
  | None => (w, inr None)
  | Some d =>
      let merged := set_members (members_of update) (doc_fields d) in
      match validate (model_schema m) (JObject merged) with
      | Some path => (w, inl (ValidationError path))
      | None =>
          let d' := {| doc_id := doc_id d;
                       doc_fields := cast (model_schema m) (JObject merged) |} in
          (set_stored <[ collection_of m := replace_by_id d' (documents w m) ]> (generated w) w,
           inr (Some d'))
      end
  end.

End Accessor.

(** ** The server *)

(** An [async] body run in one piece: it threads the state and stops at the
    first exception. *)
Definition Async (A : Type) : Type := World -> World * (Error + A).

#[local] Instance Async_ret : MRet Async := fun A (a : A) w => (w, inr a).

#[local] Instance Async_bind : MBind Async := fun A B (k : A -> Async B) (m : Async A) w =>
  match m w with
  | (w1, inr a) => k a w1
  | (w1, inl e) => (w1, inl e)
  end.

(** An operation on the state used as a step of an [async] body. *)
Definition effect {A : Type} (f : World -> World * (Error + A)) : Async A := f.

Definition await (call : World -> World * Outcome) : Async Value := fun w =>
  match call w with
  | (w1, Returned v) => (w1, inr v)
  | (w1, Thrown e) => (w1, inl e)
  end.

(** The receiver of a method call [Model.f(...)]: only a compiled model has
    the methods of a model. *)
Definition method (f : string) (receiver : Value) : Async Model := fun w =>
  match receiver with
  | VModel m => (w, inr m)
  | _ => (w, inl (TypeError f))
  end.

Fixpoint for_each {A : Type} (l : list A) (body : A -> Async unit) : Async unit :=
  match l with
  | [] => mret tt
  | x :: l' => body x ≫= fun _ => for_each l' body
  end.

Inductive Body :=
| BDocuments (documents : list Document)
| BInserted (insertedId : string)
| BInsertedMany (insertedIds : list string)
| BUpdated (modifiedDocument : Document)
| BMessage (message : string)
| BText (text : string)
| BError (error : Error)
| BBadRequest (error : string).

Record Response := {
  status : nat;
  body : Body
}.

(** [try { ... } catch (err) { res.status(500).json({ error: err.message }) }] *)
Definition try_catch (handler : Async Response) (w : World) : World * Response :=
  match handler w with
  | (w1, inr r) => (w1, r)
  | (w1, inl e) => (w1, {| status := 500; body := BError e |})
  end.

Definition is_array (v : option Json) : bool :=
  match v with
  | Some (JArray _) => true
  | _ => false
  end.

Definition items_of (v : option Json) : list Json :=
  match v with
  | Some (JArray items) => items
  | _ => []
  end.

Section Server.

Variable env : Env.

(** Lines 116-132. *)
Definition get_find (database collection : string) : World -> World * Response :=
  try_catch (
    Model ← await (fun w => getModel env w database collection);
    m ← method "Model.find" Model;
    found ← effect (fun w => (w, inr (listAll w m)));
    mret {| status := 200; body := BDocuments found |}).

(** Lines 135-166. *)
Definition post_insert (database collection : string) (req_body : Json)
  : World -> World * Response :=
  try_catch (
    Model ← await (fun w => getModel env w database collection);
    if json_truthy (json_member req_body "document") then
      m ← method "Model.create" Model;
      newDocument ← effect (fun w =>
        insertOne env w m (default JNull (json_member req_body "document")));
      mret {| status := 201; body := BInserted (doc_id newDocument) |}
    else if json_truthy (json_member req_body "documents")
            && is_array (json_member req_body "documents") then
      m ← method "Model.insertMany" Model;
      newDocuments ← effect (fun w =>
        insertMany env w m (items_of (json_member req_body "documents")));
      mret {| status := 201; body := BInsertedMany (map doc_id newDocuments) |}
    else
      mret {| status := 400;
              body := BBadRequest
                "Request body must contain either 'document' or 'documents' as array" |}).

(** Lines 169-183. *)
Definition delete_by_id (database collection id : string) : World -> World * Response :=
  try_catch (
    Model ← await (fun w => getModel env w database collection);
    m ← method "Model.findByIdAndDelete" Model;
    result ← effect (fun w => let '(w1, r) := deleteById w m id in (w1, inr r));
    match result with
    | None =>
        mret {| status := 404;
                body := BText ("Document with ID " +:+ id +:+ " not found.") |}
    | Some _ =>
        mret {| status := 200;
                body := BText ("Document with ID " +:+ id +:+ " deleted successfully.") |}
    end).

(** Lines 186-214. *)
Definition put_update (database collection id : string) (req_body : Json)
  : World -> World * Response :=
  try_catch (
    let updateData := json_member req_body "update" in
    if negb (json_truthy updateData) then
      mret {| status := 400; body := BBadRequest "Update data not provided" |}
    else
      Model ← await (fun w => getModel env w database collection);
      m ← method "Model.findByIdAndUpdate" Model;
      result ← effect (fun w => updateById w m id (default JNull updateData));
      match result with
      | None => mret {| status := 404; body := BMessage "Document not found" |}
      | Some d => mret {| status := 200; body := BUpdated d |}
      end).

(** Lines 226 and 232. *)
Definition testDatabases : list string := [ "ProductsDB"; "UsersEmployeesDB" ].

Definition testCollections (dbName : string) : list string :=
  if String.eqb dbName "ProductsDB" then [ "Products" ] else [ "Users"; "Employees" ].

(** Lines 233-237: the probe of one collection. *)
Definition probe_collection (dbName collectionName : string) : Async unit :=
  Model ← await (fun w => getModel env w dbName collectionName);
  m ← method "Model.estimatedDocumentCount" Model;
  count ← effect (fun w =>
    match estimatedDocumentCount env m with
    | Some n => (w, inr n)
    | None => (w, inl (DriverError "estimatedDocumentCount"))
    end);
  mret tt.

(** Lines 227-238: the probe of one database and of its collections. *)
Definition probe_database (dbName : string) : Async unit :=
  connection ← await (fun w => getConnection env w dbName);
  for_each (testCollections dbName) (probe_collection dbName).

Definition probe : Async unit := for_each testDatabases probe_database.

(** How [startServer] ends: [app.listen] is reached, or the [catch] of line
    243 calls [process.exit(1)]. *)
Inductive Startup :=
| Listening
| Exited (code : nat) (err : Error).

(** Lines 217-247. *)
Definition startServer (w : World) : World * Startup :=
  match probe w with
  | (w1, inr _) => (w1, Listening)
  | (w1, inl e) => (w1, Exited 1 e)
  end.

(** The requests the server answers. *)
Inductive Request :=
| GET_find (database collection : string)
| POST_insert (database collection : string) (req_body : Json)
| DELETE_delete (database collection id : string)
| PUT_update (database collection id : string) (req_body : Json).

Definition serve (w : World) (r : Request) : World * Response :=
  match r with
  | GET_find database collection => get_find database collection w
  | POST_insert database collection req_body => post_insert database collection req_body w
  | DELETE_delete database collection id => delete_by_id database collection id w
  | PUT_update database collection id req_body => put_update database collection id req_body w
  end.

End Server.

(** ** States and environments the properties speak of *)

(** The states the process can be in: the empty caches, and whatever calls
    of the registry functions, requests and the start-up probe make of
    them, one after the other. *)
Inductive reachable (env : Env) : World -> Prop :=
| reachable_init : reachable env init
| reachable_getConnection w dbName :
    reachable env w -> reachable env (getConnection env w dbName).1
| reachable_getModel w dbName collectionName :
    reachable env w -> reachable env (getModel env w dbName collectionName).1
| reachable_serve w r :
    reachable env w -> reachable env (serve env w r).1
| reachable_startServer w :
    reachable env w -> reachable env (startServer env w).1.

(** A database identity is configured when [uriMap] holds a URI for it. *)
Definition configured (env : Env) (dbName : string) : Prop :=
  exists uri, js_get (uriMap env) dbName = VString uri ∧ uri ≠ "".

(** What the caches hold in every reachable state. *)
Definition caches_ok (env : Env) (w : World) : Prop :=
  (forall k v, connections w !! k = Some v ->
     configured env k ∧ exists c, v = VConnection c)
  ∧ (forall k v, models w !! k = Some v ->
       exists db m, configured env db ∧ k = modelKey db "Products" ∧ v = VModel m
         ∧ model_schema m = productSchema ∧ model_collection m = "Products").

(** An [async] body keeps [caches_ok]. *)
Definition keeps (env : Env) {A : Type} (a : Async A) : Prop :=
  forall w, caches_ok env w -> caches_ok env (a w).1.

(** The hyphen of a model key. *)
Fixpoint has_hyphen (s : string) : bool :=
  match s with
  | EmptyString => false
  | String a s' => Ascii.eqb a "-" || has_hyphen s'
  end.

(** A record breaks a structural contract when a required path of the
    contract is missing from it, or when it gives a path a number below the
    minimum of that path. *)
Inductive Violates (s : Schema) (record : Json) : Prop :=
| Violates_required k p :
    (k, p) ∈ paths s -> path_required p = true ->
    json_member record k = None -> Violates s record
| Violates_min k p m q :
    (k, p) ∈ paths s -> path_min p = Some m ->
    json_member record k = Some (JNumber q) -> (q < m)%Q -> Violates s record.

(** Two environments: both variables set, and every endpoint up or every
    endpoint down. *)
Definition online : Env := {|
  MONGO_CLIENT_URI := Some "mongodb://client.example/mecazon";
  MONGO_SERVER_URI := Some "mongodb://server.example/mecazon";
  endpoint := fun _ _ => true;
  objectId := fun n => "oid" +:+ pretty n;
  estimatedDocumentCount := fun _ => Some 0
|}.

Definition offline : Env := {|
  MONGO_CLIENT_URI := Some "mongodb://client.example/mecazon";
  MONGO_SERVER_URI := Some "mongodb://server.example/mecazon";
  endpoint := fun _ _ => false;
  objectId := fun n => "oid" +:+ pretty n;
  estimatedDocumentCount := fun _ => Some 0
|}.

(** An environment in which the first variable is not set. *)
Definition unset : Env := {|
  MONGO_CLIENT_URI := None;
  MONGO_SERVER_URI := Some "mongodb://server.example/mecazon";
  endpoint := fun _ _ => true;
  objectId := fun n => "oid" +:+ pretty n;
  estimatedDocumentCount := fun _ => Some 0
|}.

(** Example data: a record with a negative price, a valid record, the
    model of [Products] on the first connection, and the state after a first
    request has stored the valid record. *)
Definition bad_record : list (string * Json) :=
  [ ("name", JString "Bad"); ("price", JNumber (-1 # 1)) ].

Definition widget : list (string * Json) :=
  [ ("name", JString "Widget"); ("price", JNumber (999 # 100)) ].

Definition products_model : Model := {|
  model_id := 0;
  model_connection := {| conn_id := 0; conn_uri := "mongodb://client.example/mecazon" |};
  model_name := "Products";
  model_schema := productSchema;
  model_collection := "Products"
|}.

Definition one_widget : World :=
  (post_insert online "ProductsDB" "Products"
     (JObject [("document", JObject widget)]) init).1.

(** ** How the registry evolves *)

(** Two states with the same registry: the same caches and the same counts
    of connection attempts and compiled models. *)
Definition same_registry (w w' : World) : Prop :=
  connections w' = connections w ∧ models w' = models w
  ∧ opened w' = opened w ∧ compiled w' = compiled w.

(** [evolves env w w']: from [w], calls of [getConnection] and [getModel]
    and changes of the stored documents lead to [w']. *)
Inductive evolves (env : Env) (w : World) : World -> Prop :=
| evolves_refl : evolves env w w
| evolves_getConnection w' dbName :
    evolves env w w' -> evolves env w (getConnection env w' dbName).1
| evolves_getModel w' dbName collectionName :
    evolves env w w' -> evolves env w (getModel env w' dbName collectionName).1
| evolves_store w' w'' :
    evolves env w w' -> same_registry w' w'' -> evolves env w w''.

(** An [async] body moves the state as [evolves] allows. *)
Definition walks (env : Env) {A : Type} (a : Async A) : Prop :=
  forall w, evolves env w (a w).1.

(** What the registry holds when calls run one after the other: every cached
    connection was opened at the URI that [uriMap] gives for its key, every
    cached accessor is a model of [Products] bound to the connection cached
    for its database, and every compiled model is in the cache. *)
Definition registry_ok (env : Env) (w : World) : Prop :=
  (forall k v, connections w !! k = Some v ->
     exists c, v = VConnection c ∧ js_get (uriMap env) k = VString (conn_uri c)
       ∧ (conn_id c < opened w)%nat)
  ∧ (forall k v, models w !! k = Some v ->
       exists db m, k = modelKey db "Products" ∧ v = VModel m
         ∧ connections w !! db = Some (VConnection (model_connection m))
         ∧ model_name m = "Products" ∧ model_schema m = productSchema
         ∧ model_collection m = "Products" ∧ (model_id m < compiled w)%nat)
  ∧ compiled w = size (models w)
  ∧ (size (connections w) ≤ opened w)%nat.

(** What the process does, one thing after the other: a call of a registry
    function, a request, or the start-up probe. *)
Inductive Call :=
| CallGetConnection (dbName : string)
| CallGetModel (dbName collectionName : string)
| CallServe (r : Request)
| CallStartServer.

Definition perform (env : Env) (w : World) (c : Call) : World :=
  match c with
  | CallGetConnection dbName => (getConnection env w dbName).1
  | CallGetModel dbName collectionName => (getModel env w dbName collectionName).1
  | CallServe r => (serve env w r).1
  | CallStartServer => (startServer env w).1
  end.

Definition perform_all (env : Env) (w : World) (calls : list Call) : World :=
  fold_left (perform env) calls w.

(** The database and the collection a request names. *)
Definition request_pair (r : Request) : string * string :=
  match r with
  | GET_find database collection
  | POST_insert database collection _
  | DELETE_delete database collection _
  | PUT_update database collection _ _ => (database, collection)
  end.

(** ** Calls in flight: what they may still do *)

(** The connection attempts a call may still issue, and the models it may
    still compile. *)
Definition opens_left (t : Task) : nat :=
  match t with
  | TConnection (ConnEnter _) => 1
  | TModel (ModelEnter _ _) => 1
  | TModel (ModelAwait _ _ (ConnEnter _)) => 1
  | _ => 0
  end.

Definition compiles_left (t : Task) : nat :=
  match t with
  | TModel (ModelEnter _ _) => 1
  | TModel (ModelAwait _ _ _) => 1
  | _ => 0
  end.

(** What a call in flight holds: a suspended [getConnection] holds the URI
    it read from [uriMap], and a [getModel] that has been handed a connection
    was called with a configured database identity. *)
Definition connection_call_ok (env : Env) (dbName : string) (c : ConnectionCall) : Prop :=
  match c with
  | ConnEnter db => db = dbName
  | ConnAwait db _ u => db = dbName ∧ u = js_get (uriMap env) dbName ∧ truthy u = true
  | ConnSettled (Returned (VConnection _)) => configured env dbName
  | ConnSettled _ => True
  end.

Definition task_ok (env : Env) (t : Task) : Prop :=
  match t with
  | TConnection (ConnAwait db a u) => connection_call_ok env db (ConnAwait db a u)
  | TConnection _ => True
  | TModel (ModelAwait db _ inner) => connection_call_ok env db inner
  | TModel (ModelSettled (Returned v)) =>
      exists db m, configured env db ∧ v = VModel m
        ∧ model_collection m = "Products" ∧ model_schema m = productSchema
  | TModel _ => True
  end.

(** ** Two calls for one key *)

(** What a call of [getModel dbName collectionName] holds as long as no
    other call gets a turn: once it has returned, the accessor cache holds
    the value it returned. *)
Definition model_call_of (w : World) (dbName collectionName : string)
  (m : ModelCall) : Prop :=
  match m with
  | ModelEnter d c | ModelAwait d c _ => d = dbName ∧ c = collectionName
  | ModelSettled (Returned v) =>
      js_get (models w) (modelKey dbName collectionName) = v ∧ truthy v = true
  | ModelSettled (Thrown _) => True
  end.

(** The same for a call of [getConnection dbName]. *)
Definition connection_call_of (env : Env) (w : World) (dbName : string)
  (c : ConnectionCall) : Prop :=
  match c with
  | ConnEnter d => d = dbName
  | ConnAwait d _ _ => d = dbName ∧ truthy (js_get (uriMap env) dbName) = true
  | ConnSettled (Returned v) =>
      truthy (js_get (uriMap env) dbName) = true
      ∧ js_get (connections w) dbName = v ∧ truthy v = true
  | ConnSettled (Thrown _) => True
  end.

Definition call_of (env : Env) (dbName collectionName : string)
  (w : World) (t : Task) : Prop :=
  match t with
  | TModel m => model_call_of w dbName collectionName m
  | TConnection c => connection_call_of env w dbName c
  end.

(** A call of [getModel dbName collectionName] that has passed the check of
    line 84: it is suspended on line 86, or it has thrown, or it has returned
    a model that it compiled itself. *)
Definition past_check (w : World) (dbName collectionName : string)
  (m : ModelCall) : Prop :=
  match m with
  | ModelEnter _ _ => False
  | ModelAwait d c _ => d = dbName ∧ c = collectionName
  | ModelSettled (Returned v) => exists m, v = VModel m ∧ (model_id m < compiled w)%nat
  | ModelSettled (Thrown _) => True
  end.

Definition returned_model (m : ModelCall) : nat :=
  match m with
  | ModelSettled (Returned _) => 1
  | _ => 0
  end.

(** Two calls of [getModel] for one key that have both passed the check,
    [n] models having been compiled when both were suspended: each model
    compiled since was returned by one of them, the two do not return the
    same value, and the cache holds what was returned last. *)
Definition overlap_ok (n : nat) (dbName collectionName : string)
  (w : World) (t0 t1 : Task) : Prop :=
  exists a b,
    t0 = TModel a ∧ t1 = TModel b
    ∧ past_check w dbName collectionName a
    ∧ past_check w dbName collectionName b
    ∧ compiled w = (n + returned_model a + returned_model b)%nat
    ∧ (forall va vb,
         a = ModelSettled (Returned va) -> b = ModelSettled (Returned vb) -> va ≠ vb)
    ∧ ((0 < returned_model a + returned_model b)%nat ->
       a = ModelSettled (Returned (js_get (models w) (modelKey dbName collectionName)))
       ∨ b = ModelSettled (Returned (js_get (models w) (modelKey dbName collectionName)))).

(** A call of [getModel dbName collectionName] that was suspended on the
    connection attempt [attempt] at [uri]: what it is handed is the
    connection of that attempt, and the model it returns is bound to it. *)
Definition bound_to (attempt : nat) (uri dbName collectionName : string)
  (t : Task) : Prop :=
  match t with
  | TModel (ModelAwait d c (ConnAwait d' a u)) =>
      d = dbName ∧ c = collectionName ∧ d' = dbName ∧ a = attempt ∧ u = VString uri
  | TModel (ModelAwait d c (ConnSettled (Returned v))) =>
      d = dbName ∧ c = collectionName
      ∧ v = VConnection {| conn_id := attempt; conn_uri := uri |}
  | TModel (ModelAwait d c (ConnSettled (Thrown _))) => True
  | TModel (ModelSettled (Returned v)) =>
      exists m, v = VModel m
        ∧ model_connection m = {| conn_id := attempt; conn_uri := uri |}
  | TModel (ModelSettled (Thrown _)) => True
  | _ => False
  end.

(** A call of [getConnection dbName] that was suspended on the connection
    attempt [attempt] at [uri]: what it returns is the connection of that
    attempt. *)
Definition attempt_of (attempt : nat) (uri dbName : string) (t : Task) : Prop :=
  match t with
  | TConnection (ConnAwait d a u) => d = dbName ∧ a = attempt ∧ u = VString uri
  | TConnection (ConnSettled (Returned v)) =>
      v = VConnection {| conn_id := attempt; conn_uri := uri |}
  | TConnection (ConnSettled (Thrown _)) => True
  | _ => False
  end.

Definition returned_connection (t : Task) : nat :=
  match t with
  | TConnection (ConnSettled (Returned _)) => 1
  | _ => 0
  end.

(** Two calls of [getConnection] for one identity, suspended on the attempts
    [a0] and [a1]: no further attempt is made, and the cache holds what was
    returned last. *)
Definition attempts_ok (o a0 a1 : nat) (uri dbName : string)
  (w : World) (t0 t1 : Task) : Prop :=
  attempt_of a0 uri dbName t0 ∧ attempt_of a1 uri dbName t1
  ∧ opened w = o
  ∧ ((0 < returned_connection t0 + returned_connection t1)%nat ->
     t0 = TConnection (ConnSettled (Returned (js_get (connections w) dbName)))
     ∨ t1 = TConnection (ConnSettled (Returned (js_get (connections w) dbName)))).

(** A call that has not started yet. *)
Definition unstarted (t : Task) : bool :=
  match t with
  | TConnection (ConnEnter _) | TModel (ModelEnter _ _) => true
  | _ => false
  end.

(** * Properties *)

Ltac unfold_async :=
  unfold mbind, Async_bind, mret, Async_ret, await, method, effect in *.


(** ** Property reads *)

Lemma js_get_own (o : gmap string Value) k v : o !! k = Some v -> js_get o k = v.
Proof. intros H. unfold js_get. by rewrite H. Qed.

Lemma js_get_insert (o : gmap string Value) k v : js_get (<[ k := v ]> o) k = v.
Proof. apply js_get_own, lookup_insert_eq. Qed.

Lemma js_get_insert_ne (o : gmap string Value) k k' v :
  k ≠ k' -> js_get (<[ k := v ]> o) k' = js_get o k'.
Proof. intros H. unfold js_get. by rewrite lookup_insert_ne. Qed.

Lemma js_get_empty k : js_get ∅ k = if inherited k then VBuiltin k else VUndefined.
Proof. unfold js_get. by rewrite lookup_empty. Qed.

Lemma inherited_elem k : inherited k = true -> k ∈ object_prototype.
Proof.
  unfold inherited. intros H. apply existsb_exists in H as (x & Hx & Heq).
  apply String.eqb_eq in Heq. subst. by apply list_elem_of_In.
Qed.

Lemma has_hyphen_app a b : has_hyphen (a +:+ b) = has_hyphen a || has_hyphen b.
Proof. induction a as [|c a IH]; simpl; [done|]. rewrite IH. by rewrite orb_assoc. Qed.

Lemma has_hyphen_modelKey db coll : has_hyphen (modelKey db coll) = true.
Proof. unfold modelKey. rewrite !has_hyphen_app. simpl. by rewrite orb_true_r. Qed.

Lemma inherited_no_hyphen k : inherited k = true -> has_hyphen k = false.
Proof.
  intros H. apply inherited_elem in H. unfold object_prototype in H.
  repeat (apply elem_of_cons in H as [-> | H]; [reflexivity|]).
  by apply elem_of_nil in H.
Qed.

(** No model key is the name of an inherited member: a read of [models] at a
    model key sees own properties only. *)
Lemma modelKey_not_inherited db coll : inherited (modelKey db coll) = false.
Proof.
  destruct (inherited (modelKey db coll)) eqn:E; [|done].
  apply inherited_no_hyphen in E. by rewrite has_hyphen_modelKey in E.
Qed.

Lemma js_get_models_None (o : gmap string Value) db coll :
  o !! modelKey db coll = None -> js_get o (modelKey db coll) = VUndefined.
Proof. intros H. unfold js_get. by rewrite H, modelKey_not_inherited. Qed.

(** The reads of [uriMap]. *)
Lemma uriMap_cases env db :
  (db = "ProductsDB" ∧ js_get (uriMap env) db = env_value (MONGO_CLIENT_URI env))
  ∨ (db = "UsersEmployeesDB" ∧ js_get (uriMap env) db = env_value (MONGO_SERVER_URI env))
  ∨ (db ≠ "ProductsDB" ∧ db ≠ "UsersEmployeesDB"
     ∧ js_get (uriMap env) db = if inherited db then VBuiltin db else VUndefined).
Proof.
  destruct (decide (db = "ProductsDB")) as [->|H1].
  { left. split; [done|]. apply js_get_insert. }
  destruct (decide (db = "UsersEmployeesDB")) as [->|H2].
  { right; left. split; [done|]. unfold uriMap.
    rewrite js_get_insert_ne by done. apply js_get_insert. }
  right; right. repeat split; try done. unfold uriMap.
  rewrite !js_get_insert_ne by done. apply js_get_empty.
Qed.

Lemma uriMap_string env db uri :
  js_get (uriMap env) db = VString uri ->
  db = "ProductsDB" ∨ db = "UsersEmployeesDB".
Proof.
  intros H. destruct (uriMap_cases env db) as [[-> _]|[[-> _]|(_ & _ & E)]]; auto.
  rewrite E in H. by destruct (inherited db).
Qed.

Lemma truthy_string uri : uri ≠ "" -> truthy (VString uri) = true.
Proof. intros H. simpl. apply negb_true_iff. by apply String.eqb_neq. Qed.

(** ** The connection registry *)

Section ConnectionFacts.

Variable env : Env.

Lemma createConnection_Returned attempt u c :
  createConnection env attempt u = Returned c ->
  exists uri, u = VString uri ∧ endpoint env attempt uri = true
    ∧ c = VConnection {| conn_id := attempt; conn_uri := uri |}.
Proof.
  unfold createConnection. destruct u; try discriminate.
  destruct (endpoint env attempt s) eqn:E; [|discriminate].
  intros [= <-]. eauto.
Qed.

(** The three ways a call of [getConnection] goes. *)
Lemma getConnection_unmapped w db :
  truthy (js_get (uriMap env) db) = false ->
  getConnection env w db = (w, Thrown (UnconfiguredDatabase db)).
Proof. intros H. unfold getConnection, getConnection_enter. by rewrite H. Qed.

Lemma getConnection_cached w db :
  truthy (js_get (uriMap env) db) = true ->
  truthy (js_get (connections w) db) = true ->
  getConnection env w db = (w, Returned (js_get (connections w) db)).
Proof. intros H1 H2. unfold getConnection, getConnection_enter. by rewrite H1, H2. Qed.

Lemma getConnection_fresh w db :
  truthy (js_get (uriMap env) db) = true ->
  truthy (js_get (connections w) db) = false ->
  getConnection env w db =
    getConnection_resume env (set_opened (S (opened w)) w) db (opened w)
      (js_get (uriMap env) db).
Proof. intros H1 H2. unfold getConnection, getConnection_enter. by rewrite H1, H2. Qed.

Lemma getConnection_models w db :
  models (getConnection env w db).1 = models w.
Proof.
  destruct (truthy (js_get (uriMap env) db)) eqn:H1;
    [|by rewrite getConnection_unmapped].
  destruct (truthy (js_get (connections w) db)) eqn:H2;
    [by rewrite getConnection_cached|].
  rewrite getConnection_fresh by done. unfold getConnection_resume.
  by destruct (createConnection _ _ _).
Qed.

Lemma getConnection_stored w db :
  stored (getConnection env w db).1 = stored w
  ∧ generated (getConnection env w db).1 = generated w
  ∧ compiled (getConnection env w db).1 = compiled w.
Proof.
  destruct (truthy (js_get (uriMap env) db)) eqn:H1;
    [|by rewrite getConnection_unmapped].
  destruct (truthy (js_get (connections w) db)) eqn:H2;
    [by rewrite getConnection_cached|].
  rewrite getConnection_fresh by done. unfold getConnection_resume.
  by destruct (createConnection _ _ _).
Qed.

(** A call that returns leaves what it returns in the cache, and what it
    returns is truthy. *)
Lemma getConnection_Returned w db w1 c :
  getConnection env w db = (w1, Returned c) ->
  truthy (js_get (uriMap env) db) = true
  ∧ js_get (connections w1) db = c ∧ truthy c = true.
Proof.
  destruct (truthy (js_get (uriMap env) db)) eqn:H1;
    [|by rewrite getConnection_unmapped].
  destruct (truthy (js_get (connections w) db)) eqn:H2.
  - rewrite getConnection_cached by done. by intros [= <- <-].
  - rewrite getConnection_fresh by done. unfold getConnection_resume.
    destruct (createConnection _ _ _) as [c'|] eqn:E; [|discriminate].
    apply createConnection_Returned in E as (uri & _ & _ & ->).
    simpl. rewrite js_get_insert. intros [= <- <-]. simpl.
    by rewrite js_get_insert.
Qed.

(** C2. After a call of [getConnection] has returned a connection, the next
    call for the same database identity returns that same connection out of
    the cache and changes nothing: no new connection attempt ([opened] is a
    component of the state) and no other effect. *)
Theorem getConnection_idempotent w db w1 c :
  getConnection env w db = (w1, Returned c) ->
  getConnection env w1 db = (w1, Returned c)
  ∧ js_get (connections w1) db = c
  ∧ opened (getConnection env w1 db).1 = opened w1.
Proof.
  intros H. apply getConnection_Returned in H as (H1 & H2 & H3).
  assert (E : getConnection env w1 db = (w1, Returned c)).
  { rewrite getConnection_cached; rewrite ?H2; done. }
  by rewrite E.
Qed.

(** A database identity that is neither a key of [uriMap] nor the name of
    an inherited member is refused, and nothing changes. *)
Lemma getConnection_unconfigured w db :
  db ≠ "ProductsDB" -> db ≠ "UsersEmployeesDB" -> inherited db = false ->
  getConnection env w db = (w, Thrown (UnconfiguredDatabase db)).
Proof.
  intros H1 H2 H3. apply getConnection_unmapped.
  destruct (uriMap_cases env db) as [[? _]|[[? _]|(_ & _ & E)]]; try done.
  by rewrite E, H3.
Qed.

(** The name of an inherited member is not refused: [uriMap[dbName]] and
    [connections[dbName]] both read the member, which is truthy, and the call
    returns it as if it were a cached connection. *)
Lemma getConnection_inherited w db :
  inherited db = true -> connections w !! db = None ->
  db ≠ "ProductsDB" -> db ≠ "UsersEmployeesDB" ->
  getConnection env w db = (w, Returned (VBuiltin db)).
Proof.
  intros Hi Hc H1 H2.
  assert (E : js_get (connections w) db = VBuiltin db).
  { unfold js_get. by rewrite Hc, Hi. }
  rewrite getConnection_cached; rewrite ?E; try done.
  destruct (uriMap_cases env db) as [[? _]|[[? _]|(_ & _ & E')]]; try done.
  by rewrite E', Hi.
Qed.

(** C3, at the database identity [constructor] in the initial state: it is
    no key of [uriMap], yet the call throws nothing and returns the inherited
    member as if it were a cached connection.  The cache is left as it
    was. *)
Theorem getConnection_constructor :
  uriMap env !! "constructor" = None
  ∧ getConnection env init "constructor" = (init, Returned (VBuiltin "constructor")).
Proof. split; [done|]. by apply getConnection_inherited. Qed.

(** C5, with the failure of an attempt as the specification's section 4.1
    gives it ([createConnection], second branch).  When the attempt to
    connect to a configured database fails, the call fails with
    [ConnectionError] and the cache is as before, without a connection for
    that identity; the next call issues a new attempt at the same URI, and
    returns and caches its connection when that one succeeds. *)
Theorem getConnection_failure_not_cached w db uri :
  js_get (uriMap env) db = VString uri -> uri ≠ "" ->
  truthy (js_get (connections w) db) = false ->
  endpoint env (opened w) uri = false ->
  exists w1,
    getConnection env w db = (w1, Thrown (ConnectionError (opened w) uri))
    ∧ connections w1 = connections w
    ∧ truthy (js_get (connections w1) db) = false
    ∧ opened w1 = S (opened w)
    ∧ getConnection_enter env w1 db
        = (set_opened (S (opened w1)) w1, inl (opened w1, VString uri))
    ∧ getConnection env w1 db
        = getConnection_resume env (set_opened (S (opened w1)) w1) db (opened w1) (VString uri)
    ∧ (endpoint env (opened w1) uri = true ->
       exists w2,
         getConnection env w1 db
           = (w2, Returned (VConnection {| conn_id := opened w1; conn_uri := uri |}))
         ∧ connections w2 !! db
             = Some (VConnection {| conn_id := opened w1; conn_uri := uri |})).
Proof.
  intros Huri Hne Hc Hfail.
  assert (Ht : truthy (js_get (uriMap env) db) = true)
    by (rewrite Huri; by apply truthy_string).
  exists (set_opened (S (opened w)) w).
  split.
  { rewrite getConnection_fresh by done. unfold getConnection_resume.
    rewrite Huri. simpl. by rewrite Hfail. }
  repeat split; try done.
  - unfold getConnection_enter. rewrite Ht. simpl. rewrite Hc. simpl. by rewrite Huri.
  - rewrite getConnection_fresh by done. by rewrite Huri.
  - intros Hok. eexists. rewrite getConnection_fresh by done.
    unfold getConnection_resume. rewrite Huri. simpl in *. rewrite Hok.
    split; [by rewrite js_get_insert|]. simpl. apply lookup_insert_eq.
Qed.

End ConnectionFacts.

(** ** The model registry *)


Lemma switch_schema_inr coll s :
  switch_schema coll = inr s -> coll = "Products" ∧ s = productSchema.
Proof.
  unfold switch_schema. destruct (String.eqb coll "Products") eqn:E.
  - apply String.eqb_eq in E. by intros [= <-].
  - by repeat case_match.
Qed.

Section ModelFacts.

Variable env : Env.

Lemma getModel_cached w db coll :
  truthy (js_get (models w) (modelKey db coll)) = true ->
  getModel env w db coll = (w, Returned (js_get (models w) (modelKey db coll))).
Proof. intros H. unfold getModel. by rewrite H. Qed.

Lemma getModel_uncached w db coll :
  truthy (js_get (models w) (modelKey db coll)) = false ->
  getModel env w db coll =
    getModel_resume (getConnection env w db).1 db coll (getConnection env w db).2.
Proof. intros H. unfold getModel. rewrite H. simpl. by destruct (getConnection env w db). Qed.

(** The continuation of [getModel] touches [models] only when it returns,
    and never touches [connections]. *)
Lemma getModel_resume_Thrown w db coll o w1 e :
  getModel_resume w db coll o = (w1, Thrown e) -> w1 = w.
Proof.
  unfold getModel_resume, connection_model. intros H.
  repeat case_match; simplify_eq; done.
Qed.

Lemma getModel_resume_Returned w db coll o w1 v :
  getModel_resume w db coll o = (w1, Returned v) ->
  exists c,
    o = Returned (VConnection c) ∧ coll = "Products"
    ∧ v = VModel {| model_id := compiled w; model_connection := c;
                    model_name := coll; model_schema := productSchema;
                    model_collection := coll |}
    ∧ w1 = set_models <[ modelKey db coll := v ]> (set_compiled (S (compiled w)) w).
Proof.
  unfold getModel_resume, connection_model. intros H.
  destruct o as [connection|]; [|discriminate].
  destruct (switch_schema coll) as [|s] eqn:Es; [discriminate|].
  apply switch_schema_inr in Es as [-> ->].
  destruct connection; try discriminate.
  simpl in H. rewrite js_get_insert in H. injection H as <- <-. eauto.
Qed.

Lemma getModel_resume_connections w db coll o :
  connections (getModel_resume w db coll o).1 = connections w.
Proof.
  destruct (getModel_resume w db coll o) as [w1 [v|e]] eqn:E; simpl.
  - apply getModel_resume_Returned in E as (c & _ & _ & _ & ->). done.
  - apply getModel_resume_Thrown in E. by subst.
Qed.

(** A call that throws leaves the accessor cache as it was. *)
Lemma getModel_Thrown_models w db coll w1 e :
  getModel env w db coll = (w1, Thrown e) -> models w1 = models w.
Proof.
  destruct (truthy (js_get (models w) (modelKey db coll))) eqn:H.
  - by rewrite getModel_cached.
  - rewrite getModel_uncached by done. intros E.
    apply getModel_resume_Thrown in E. subst. apply getConnection_models.
Qed.

(** A call changes the accessor cache at its own key at most. *)
Lemma getModel_frame w db coll k :
  k ≠ modelKey db coll ->
  models (getModel env w db coll).1 !! k = models w !! k.
Proof.
  intros Hk. destruct (truthy (js_get (models w) (modelKey db coll))) eqn:H.
  - by rewrite getModel_cached.
  - rewrite getModel_uncached by done.
    destruct (getModel_resume _ _ _ _) as [w1 [v|e]] eqn:E; simpl.
    + apply getModel_resume_Returned in E as (c & _ & _ & _ & ->). simpl.
      rewrite lookup_insert_ne by done. by rewrite getConnection_models.
    + apply getModel_resume_Thrown in E. subst. by rewrite getConnection_models.
Qed.

(** The connection is resolved first: a failure of [getConnection] is the
    failure of [getModel], whatever the collection name. *)
Lemma getModel_propagates w db coll w1 e :
  truthy (js_get (models w) (modelKey db coll)) = false ->
  getConnection env w db = (w1, Thrown e) ->
  getModel env w db coll = (w1, Thrown e).
Proof. intros H E. rewrite getModel_uncached by done. by rewrite E. Qed.

(** C6, at the database identity [constructor] and the collection name
    [Nope] in the initial state: the identity is no key of [uriMap] and the
    collection has no case in the [switch], yet the failure reported is
    [UnknownCollection]. *)
Theorem getModel_constructor_unknown :
  uriMap env !! "constructor" = None
  ∧ switch_schema "Nope" = inl (UnknownCollection "Nope")
  ∧ getModel env init "constructor" "Nope" = (init, Thrown (UnknownCollection "Nope")).
Proof.
  split; [done|]. split; [done|].
  rewrite getModel_uncached by done.
  by rewrite getConnection_inherited.
Qed.


End ModelFacts.

(** ** Start-up *)

Section StartupFacts.

Variable env : Env.

(** With [Users] or [Employees] an uncached call never returns: if the
    connection is resolved, reading the undeclared schema variable throws. *)
Lemma getModel_undeclared_schema w db coll :
  coll = "Users" ∨ coll = "Employees" ->
  truthy (js_get (models w) (modelKey db coll)) = false ->
  exists e,
    getModel env w db coll = ((getConnection env w db).1, Thrown e)
    ∧ (forall c, (getConnection env w db).2 = Returned c ->
         e = ReferenceError (if String.eqb coll "Users" then "userSchema"
                             else "employeeSchema")).
Proof.
  intros Hcoll Hm. rewrite getModel_uncached by done.
  destruct (getConnection env w db) as [w1 [c|e]]; simpl.
  - destruct Hcoll as [-> | ->]; eexists; split; try done;
      intros c' _; reflexivity.
  - exists e. split; [done|]. intros c' [=].
Qed.

Lemma probe_collection_frame w db coll k :
  k ≠ modelKey db coll ->
  models (probe_collection env db coll w).1 !! k = models w !! k.
Proof.
  intros Hk. pose proof (getModel_frame env w db coll k Hk) as F.
  unfold probe_collection. unfold_async.
  destruct (getModel env w db coll) as [w1 [v|e]]; simpl in *; [|done].
  destruct v; simpl; try done.
  by destruct (estimatedDocumentCount env m).
Qed.

Lemma probe_collection_undeclared w db coll :
  coll = "Users" ∨ coll = "Employees" ->
  truthy (js_get (models w) (modelKey db coll)) = false ->
  exists w1 e, probe_collection env db coll w = (w1, inl e).
Proof.
  intros Hcoll Hm.
  destruct (getModel_undeclared_schema w db coll Hcoll Hm) as (e & E & _).
  unfold probe_collection. unfold_async. rewrite E. eauto.
Qed.

(** The probe of [ProductsDB] leaves the key of [Users] uncached. *)
Lemma probe_ProductsDB_frame w :
  models (probe_database env "ProductsDB" w).1 !! modelKey "UsersEmployeesDB" "Users"
  = models w !! modelKey "UsersEmployeesDB" "Users".
Proof.
  unfold probe_database.
  change (testCollections "ProductsDB") with ["Products"].
  unfold for_each.
  pose proof (getConnection_models env w "ProductsDB") as Hc.
  unfold_async.
  destruct (getConnection env w "ProductsDB") as [w1 [c|e]]; simpl in *;
    [|by rewrite Hc].
  pose proof (probe_collection_frame w1 "ProductsDB" "Products"
                (modelKey "UsersEmployeesDB" "Users")) as F.
  destruct (probe_collection env "ProductsDB" "Products" w1) as [w2 [e|[]]];
    simpl in *; rewrite F, ?Hc; done.
Qed.

(** The probe of [UsersEmployeesDB] throws as long as [Users] is uncached. *)
Lemma probe_UsersEmployeesDB_throws w :
  models w !! modelKey "UsersEmployeesDB" "Users" = None ->
  exists w1 e, probe_database env "UsersEmployeesDB" w = (w1, inl e).
Proof.
  intros Hm. unfold probe_database.
  change (testCollections "UsersEmployeesDB") with ["Users"; "Employees"].
  pose proof (getConnection_models env w "UsersEmployeesDB") as Hc.
  unfold for_each. unfold_async.
  destruct (getConnection env w "UsersEmployeesDB") as [w1 [c|e]]; simpl in *;
    [|eauto].
  destruct (probe_collection_undeclared w1 "UsersEmployeesDB" "Users")
    as (w2 & e & E); [by left| |].
  { rewrite js_get_models_None; [done|]. by rewrite Hc. }
  rewrite E. eauto.
Qed.

Lemma startServer_exits w :
  models w !! modelKey "UsersEmployeesDB" "Users" = None ->
  exists w1 e, startServer env w = (w1, Exited 1 e).
Proof.
  intros Hm. unfold startServer, probe.
  change testDatabases with ["ProductsDB"; "UsersEmployeesDB"].
  unfold for_each.
  pose proof (probe_ProductsDB_frame w) as F.
  unfold mbind at 1. unfold Async_bind at 1.
  destruct (probe_database env "ProductsDB" w) as [w1 [e|[]]]; simpl in *;
    [eauto|].
  destruct (probe_UsersEmployeesDB_throws w1) as (w2 & e & E);
    [by rewrite F|].
  unfold mbind, Async_bind. rewrite E. eauto.
Qed.

(** C8. With the collection name [Users] or [Employees] and an uncached key,
    [getModel] fails for every database identity and leaves the accessor
    cache as it was; when the connection is resolved the failure is the read
    of the undeclared variable [userSchema] or [employeeSchema].  Hence
    [startServer], which probes both names from the empty caches, always ends
    in [process.exit(1)]. *)
Theorem Users_Employees_always_fail w db coll :
  coll = "Users" ∨ coll = "Employees" ->
  truthy (js_get (models w) (modelKey db coll)) = false ->
  (exists w1 e,
     getModel env w db coll = (w1, Thrown e)
     ∧ models w1 = models w
     ∧ (forall c, (getConnection env w db).2 = Returned c ->
          e = ReferenceError (if String.eqb coll "Users" then "userSchema"
                              else "employeeSchema")))
  ∧ (exists w2 e, startServer env init = (w2, Exited 1 e)).
Proof.
  intros Hcoll Hm. split.
  - destruct (getModel_undeclared_schema w db coll Hcoll Hm) as (e & E & He).
    do 2 eexists. split; [exact E|]. split; [|exact He].
    apply getConnection_models.
  - by apply startServer_exits.
Qed.

End StartupFacts.

(** ** What the caches hold *)

Lemma append_nil_l s : "" +:+ s = s.
Proof. reflexivity. Qed.

Lemma append_cons x a s : String x a +:+ s = String x (a +:+ s).
Proof. reflexivity. Qed.

(** A key with one hyphen splits in one way. *)
Lemma modelKey_split a b p q :
  has_hyphen p = false -> has_hyphen q = false ->
  modelKey a b = modelKey p q -> a = p ∧ b = q.
Proof.
  unfold modelKey. revert p. induction a as [|x a IH]; intros [|y p] Hp Hq E;
    rewrite ?append_nil_l, ?append_cons, ?append_nil_l in E.
  - by injection E as ->.
  - injection E as <- _. simpl in Hp. discriminate.
  - injection E as -> <-. rewrite has_hyphen_app in Hq. simpl in Hq.
    by rewrite orb_true_r in Hq.
  - injection E as -> E. simpl in Hp. apply orb_false_elim in Hp as [_ Hp].
    destruct (IH p Hp Hq E) as [-> ->]. done.
Qed.

Lemma configured_names env db :
  configured env db -> db = "ProductsDB" ∨ db = "UsersEmployeesDB".
Proof. intros (uri & H & _). by apply uriMap_string in H. Qed.

Lemma configured_no_hyphen env db : configured env db -> has_hyphen db = false.
Proof. intros H. by apply configured_names in H as [-> | ->]. Qed.

Lemma configured_truthy env db :
  configured env db -> truthy (js_get (uriMap env) db) = true.
Proof. intros (uri & -> & H). by apply truthy_string. Qed.

Section Invariant.

Variable env : Env.

Lemma caches_ok_init : caches_ok env init.
Proof. split; intros k v H; simpl in H; by rewrite lookup_empty in H. Qed.

(** [caches_ok] reads the two caches only. *)
Lemma caches_ok_same w w' :
  connections w' = connections w -> models w' = models w ->
  caches_ok env w -> caches_ok env w'.
Proof. unfold caches_ok. by intros -> ->. Qed.

Lemma getConnection_caches_ok w db :
  caches_ok env w -> caches_ok env (getConnection env w db).1.
Proof.
  intros Hok.
  destruct (truthy (js_get (uriMap env) db)) eqn:H1;
    [|by rewrite getConnection_unmapped].
  destruct (truthy (js_get (connections w) db)) eqn:H2;
    [by rewrite getConnection_cached|].
  rewrite getConnection_fresh by done. unfold getConnection_resume.
  destruct (createConnection _ _ _) as [c|e] eqn:E; simpl;
    [|by apply (caches_ok_same w)].
  apply createConnection_Returned in E as (uri & Huri & _ & ->).
  destruct Hok as [Hc Hm]. split; [|exact Hm].
  intros k v. simpl. destruct (decide (db = k)) as [<-|Hne].
  - rewrite lookup_insert_eq. intros [= <-]. split; [|eauto].
    exists uri. split; [done|]. intros ->. by rewrite Huri in H1.
  - rewrite lookup_insert_ne by done. apply Hc.
Qed.

(** In a state that satisfies [caches_ok], a connection that
    [getConnection] returns is the connection of a configured database. *)
Lemma getConnection_Returned_configured w db w1 c :
  caches_ok env w1 ->
  getConnection env w db = (w1, Returned (VConnection c)) ->
  configured env db.
Proof.
  intros [Hc _] E. apply getConnection_Returned in E as (_ & E & _).
  unfold js_get in E. destruct (connections w1 !! db) as [v|] eqn:L.
  - by apply Hc in L as [? _].
  - by destruct (inherited db).
Qed.

Lemma getModel_caches_ok w db coll :
  caches_ok env w -> caches_ok env (getModel env w db coll).1.
Proof.
  intros Hok.
  destruct (truthy (js_get (models w) (modelKey db coll))) eqn:H;
    [by rewrite getModel_cached|].
  rewrite getModel_uncached by done.
  pose proof (getConnection_caches_ok w db Hok) as Hok1.
  destruct (getConnection env w db) as [w1 o] eqn:Ec. simpl in *.
  destruct (getModel_resume w1 db coll o) as [w2 [v|e]] eqn:E; simpl.
  - apply getModel_resume_Returned in E as (c & -> & -> & -> & ->).
    pose proof (getConnection_Returned_configured _ _ _ _ Hok1 Ec) as Hdb.
    destruct Hok1 as [Hc Hm]. split; [exact Hc|].
    intros k v. simpl. destruct (decide (modelKey db "Products" = k)) as [<-|Hne].
    + rewrite lookup_insert_eq. intros [= <-]. eauto 10.
    + rewrite lookup_insert_ne by done. apply Hm.
  - apply getModel_resume_Thrown in E. by subst.
Qed.

(** The accessor operations leave the caches alone. *)
Lemma insertOne_caches w m record :
  connections (insertOne env w m record).1 = connections w
  ∧ models (insertOne env w m record).1 = models w.
Proof. unfold insertOne. by destruct (validate _ _). Qed.

Lemma insert_each_caches records w m :
  connections (insert_each env w m records).1 = connections w
  ∧ models (insert_each env w m records).1 = models w.
Proof.
  revert w. induction records as [|r records IH]; intros w; simpl; [done|].
  pose proof (insertOne_caches w m r) as [H1 H2].
  destruct (insertOne env w m r) as [w1 [e|d]]; simpl in *; [done|].
  pose proof (IH w1) as [H3 H4].
  destruct (insert_each env w1 m records) as [w2 [e|ds]]; simpl in *;
    by rewrite H3, H4.
Qed.

Lemma insertMany_caches w m records :
  connections (insertMany env w m records).1 = connections w
  ∧ models (insertMany env w m records).1 = models w.
Proof.
  unfold insertMany. destruct (first_invalid _ _); [done|].
  apply insert_each_caches.
Qed.

Lemma deleteById_caches w m id :
  connections (deleteById w m id).1 = connections w
  ∧ models (deleteById w m id).1 = models w.
Proof. unfold deleteById. by destruct (find_by_id _ _). Qed.

Lemma updateById_caches w m id update :
  connections (updateById w m id update).1 = connections w
  ∧ models (updateById w m id update).1 = models w.
Proof. unfold updateById. by repeat case_match. Qed.

Lemma keeps_ret {A : Type} (a : A) : keeps env (mret a).
Proof. by intros w H. Qed.

Lemma keeps_bind {A B : Type} (m : Async A) (k : A -> Async B) :
  keeps env m -> (forall a, keeps env (k a)) -> keeps env (m ≫= k).
Proof.
  intros Hm Hk w H. specialize (Hm w H). unfold mbind, Async_bind.
  destruct (m w) as [w1 [e|a]]; simpl in *; [done|]. by apply Hk.
Qed.

Lemma keeps_await (call : World -> World * Outcome) :
  (forall w, caches_ok env w -> caches_ok env (call w).1) -> keeps env (await call).
Proof.
  intros Hc w H. specialize (Hc w H). unfold await.
  by destruct (call w) as [w1 [v|e]].
Qed.

Lemma keeps_method f v : keeps env (method f v).
Proof. intros w H. unfold method. by destruct v. Qed.

Lemma keeps_effect {A : Type} (f : World -> World * (Error + A)) :
  (forall w, connections (f w).1 = connections w ∧ models (f w).1 = models w) ->
  keeps env (effect f).
Proof. intros Hf w H. destruct (Hf w). by apply (caches_ok_same w). Qed.

Lemma keeps_for_each {A : Type} (l : list A) (body : A -> Async unit) :
  (forall x, keeps env (body x)) -> keeps env (for_each l body).
Proof.
  intros Hb. induction l as [|x l IH]; simpl; [apply keeps_ret|].
  apply keeps_bind; [apply Hb|]. intros _. apply IH.
Qed.

Lemma keeps_try_catch (h : Async Response) w :
  keeps env h -> caches_ok env w -> caches_ok env (try_catch h w).1.
Proof.
  intros Hh H. specialize (Hh w H). unfold try_catch.
  by destruct (h w) as [w1 [e|r]].
Qed.

Lemma keeps_getModel db coll : keeps env (await (fun w => getModel env w db coll)).
Proof. apply keeps_await. intros w. apply getModel_caches_ok. Qed.

Lemma keeps_getConnection db : keeps env (await (fun w => getConnection env w db)).
Proof. apply keeps_await. intros w. apply getConnection_caches_ok. Qed.

Lemma serve_caches_ok w r : caches_ok env w -> caches_ok env (serve env w r).1.
Proof.
  destruct r; simpl; apply keeps_try_catch.
  - apply keeps_bind; [apply keeps_getModel|]. intros v.
    apply keeps_bind; [apply keeps_method|]. intros m.
    apply keeps_bind; [by apply keeps_effect|]. intros ?. apply keeps_ret.
  - apply keeps_bind; [apply keeps_getModel|]. intros v.
    repeat case_match.
    + apply keeps_bind; [apply keeps_method|]. intros m.
      apply keeps_bind; [|intros ?; apply keeps_ret].
      apply keeps_effect. intros w'. apply insertOne_caches.
    + apply keeps_bind; [apply keeps_method|]. intros m.
      apply keeps_bind; [|intros ?; apply keeps_ret].
      apply keeps_effect. intros w'. apply insertMany_caches.
    + apply keeps_ret.
  - apply keeps_bind; [apply keeps_getModel|]. intros v.
    apply keeps_bind; [apply keeps_method|]. intros m.
    apply keeps_bind.
    + apply keeps_effect. intros w'.
      pose proof (deleteById_caches w' m id) as Hd.
      by destruct (deleteById w' m id).
    + intros [d|]; apply keeps_ret.
  - cbv zeta. case_match; [apply keeps_ret|].
    apply keeps_bind; [apply keeps_getModel|]. intros v.
    apply keeps_bind; [apply keeps_method|]. intros m.
    apply keeps_bind.
    + apply keeps_effect. intros w'. apply updateById_caches.
    + intros [d|]; apply keeps_ret.
Qed.

Lemma startServer_caches_ok w : caches_ok env w -> caches_ok env (startServer env w).1.
Proof.
  intros H. unfold startServer.
  assert (K : keeps env (probe env)).
  { apply keeps_for_each. intros db.
    apply keeps_bind; [apply keeps_getConnection|]. intros _.
    apply keeps_for_each. intros coll.
    apply keeps_bind; [apply keeps_getModel|]. intros v.
    apply keeps_bind; [apply keeps_method|]. intros m.
    apply keeps_bind; [|intros ?; apply keeps_ret].
    apply keeps_effect. intros w'. by destruct (estimatedDocumentCount env m). }
  specialize (K w H). by destruct (probe env w) as [w1 [e|[]]].
Qed.

Lemma reachable_caches_ok w : reachable env w -> caches_ok env w.
Proof.
  induction 1.
  - apply caches_ok_init.
  - by apply getConnection_caches_ok.
  - by apply getModel_caches_ok.
  - by apply serve_caches_ok.
  - by apply startServer_caches_ok.
Qed.

(** A call of [getModel] that returns was made with a configured database
    identity and the collection name [Products], and returns a model. *)
Lemma getModel_Returned_configured w db coll w1 v :
  caches_ok env w ->
  getModel env w db coll = (w1, Returned v) ->
  configured env db ∧ coll = "Products"
  ∧ exists m, v = VModel m ∧ model_schema m = productSchema
      ∧ model_collection m = "Products".
Proof.
  intros Hok.
  destruct (truthy (js_get (models w) (modelKey db coll))) eqn:H.
  - rewrite getModel_cached by done. intros [= <- <-].
    destruct (models w !! modelKey db coll) as [v|] eqn:L.
    + rewrite (js_get_own _ _ _ L). destruct Hok as [_ Hm].
      apply Hm in L as (db' & m & Hdb & Hk & -> & Hs & Hc).
      apply modelKey_split in Hk as [-> ->];
        [eauto 10|by eapply configured_no_hyphen|done].
    + by rewrite js_get_models_None in H.
  - rewrite getModel_uncached by done.
    pose proof (getConnection_caches_ok w db Hok) as Hok1.
    destruct (getConnection env w db) as [w0 o] eqn:Ec. simpl in *.
    intros E. apply getModel_resume_Returned in E as (c & -> & -> & -> & ->).
    split; [by eapply getConnection_Returned_configured|]. eauto 10.
Qed.

End Invariant.

(** ** Collisions of model keys *)

(** C7, as amended.  [getModel] reads the accessor cache before it looks at
    the database identity, and the key is the concatenation with a hyphen,
    under which distinct pairs can share a key.  But in every reachable state
    the keys of the cache are the key of [Products] under a configured
    database identity, a call that returns was made with a configured
    database identity and the collection name [Products], and a pair whose
    key is cached is the one pair that was cached under it: no call with an
    unconfigured database identity returns an accessor. *)
Theorem modelKey_collisions_unreachable (env : Env) :
  (forall w db coll,
     truthy (js_get (models w) (modelKey db coll)) = true ->
     getModel env w db coll = (w, Returned (js_get (models w) (modelKey db coll))))
  ∧ modelKey "ProductsDB" "X-Y" = modelKey "ProductsDB-X" "Y"
  ∧ (forall w k v, reachable env w -> models w !! k = Some v ->
       exists db, configured env db ∧ k = modelKey db "Products")
  ∧ (forall w db coll w1 v,
       reachable env w -> getModel env w db coll = (w1, Returned v) ->
       configured env db ∧ coll = "Products")
  ∧ (forall w db coll db' coll',
       reachable env w ->
       truthy (js_get (models w) (modelKey db coll)) = true ->
       modelKey db' coll' = modelKey db coll -> db' = db ∧ coll' = coll).
Proof.
  split; [apply getModel_cached|]. split; [reflexivity|]. split; [|split].
  - intros w k v Hr L. apply reachable_caches_ok in Hr as [_ Hm].
    apply Hm in L as (db & m & Hdb & -> & _). eauto.
  - intros w db coll w1 v Hr E. apply reachable_caches_ok in Hr.
    destruct (getModel_Returned_configured env w db coll w1 v Hr E) as (? & ? & _).
    done.
  - intros w db coll db' coll' Hr Ht E. apply reachable_caches_ok in Hr.
    pose proof (getModel_cached env w db coll Ht) as Eg.
    apply getModel_Returned_configured in Eg as (Hdb & -> & _); [|done].
    apply modelKey_split in E; [done| |done].
    by eapply configured_no_hyphen.
Qed.

Lemma modelKey_collisions_unreachable_witness :
  configured online "ProductsDB" ∧ "Products" = "Products".
Proof.
  refine (proj1 (proj2 (proj2 (proj2 (modelKey_collisions_unreachable online))))
            init "ProductsDB" "Products"
            (getModel online init "ProductsDB" "Products").1
            (js_get (models (getModel online init "ProductsDB" "Products").1)
               (modelKey "ProductsDB" "Products"))
            (reachable_init online) _).
  vm_compute. reflexivity.
Defined.

(** The example of C7 run from the empty caches with both endpoints up: the
    first call fails and caches no accessor, and the second call, whose key
    is the same, fails with [UnconfiguredDatabase]. *)
Lemma modelKey_collision_example :
  modelKey "ProductsDB" "X-Y" = modelKey "ProductsDB-X" "Y"
  ∧ (getModel online init "ProductsDB" "X-Y").2 = Thrown (UnknownCollection "X-Y")
  ∧ models (getModel online init "ProductsDB" "X-Y").1 = ∅
  ∧ (getModel online (getModel online init "ProductsDB" "X-Y").1 "ProductsDB-X" "Y").2
      = Thrown (UnconfiguredDatabase "ProductsDB-X").
Proof. vm_compute. repeat split. Qed.

(** ** Calls that overlap *)

Section Interleaving.

Variable env : Env.

(** The turns of a call of [getModel] for an uncached key of [Products]. *)
Lemma step_model_enter_fresh w db coll uri :
  js_get (uriMap env) db = VString uri -> uri ≠ "" ->
  truthy (js_get (connections w) db) = false ->
  truthy (js_get (models w) (modelKey db coll)) = false ->
  step_model env w (ModelEnter db coll)
  = (set_opened (S (opened w)) w,
     ModelAwait db coll (ConnAwait db (opened w) (VString uri))).
Proof.
  intros Huri Hne Hc Hm. simpl. rewrite Hm. simpl.
  unfold getConnection_enter. rewrite Huri, (truthy_string uri Hne), Hc. done.
Qed.

Lemma step_model_enter_cached w db coll :
  truthy (js_get (models w) (modelKey db coll)) = true ->
  step_model env w (ModelEnter db coll)
  = (w, ModelSettled (Returned (js_get (models w) (modelKey db coll)))).
Proof. intros Hm. simpl. by rewrite Hm. Qed.

Lemma step_model_connected w db coll attempt uri :
  endpoint env attempt uri = true ->
  step_model env w (ModelAwait db coll (ConnAwait db attempt (VString uri)))
  = (set_connections <[ db := VConnection {| conn_id := attempt; conn_uri := uri |} ]> w,
     ModelAwait db coll
       (ConnSettled (Returned (VConnection {| conn_id := attempt; conn_uri := uri |})))).
Proof.
  intros Hok. simpl. unfold getConnection_resume. simpl. rewrite Hok. simpl.
  by rewrite js_get_insert.
Qed.

Lemma step_model_compiled w db c :
  step_model env w (ModelAwait db "Products" (ConnSettled (Returned (VConnection c))))
  = (set_models
       <[ modelKey db "Products" :=
            VModel {| model_id := compiled w; model_connection := c;
                      model_name := "Products"; model_schema := productSchema;
                      model_collection := "Products" |} ]>
       (set_compiled (S (compiled w)) w),
     ModelSettled
       (Returned (VModel {| model_id := compiled w; model_connection := c;
                            model_name := "Products"; model_schema := productSchema;
                            model_collection := "Products" |}))).
Proof. simpl. by rewrite js_get_insert. Qed.

(** The turns of a call of [getConnection] for an uncached identity. *)
Lemma step_connection_enter_fresh w db uri :
  js_get (uriMap env) db = VString uri -> uri ≠ "" ->
  truthy (js_get (connections w) db) = false ->
  step_connection env w (ConnEnter db)
  = (set_opened (S (opened w)) w, ConnAwait db (opened w) (VString uri)).
Proof.
  intros Huri Hne Hc. simpl.
  unfold getConnection_enter. rewrite Huri, (truthy_string uri Hne), Hc. done.
Qed.

Lemma step_connection_enter_cached w db uri :
  js_get (uriMap env) db = VString uri -> uri ≠ "" ->
  truthy (js_get (connections w) db) = true ->
  step_connection env w (ConnEnter db)
  = (w, ConnSettled (Returned (js_get (connections w) db))).
Proof.
  intros Huri Hne Hc. simpl.
  unfold getConnection_enter. rewrite Huri, (truthy_string uri Hne), Hc. done.
Qed.

Lemma step_connection_connected w db attempt uri :
  endpoint env attempt uri = true ->
  step_connection env w (ConnAwait db attempt (VString uri))
  = (set_connections <[ db := VConnection {| conn_id := attempt; conn_uri := uri |} ]> w,
     ConnSettled (Returned (VConnection {| conn_id := attempt; conn_uri := uri |}))).
Proof.
  intros Hok. simpl. unfold getConnection_resume. simpl. rewrite Hok. simpl.
  by rewrite js_get_insert.
Qed.

(** A call that runs alone computes [getConnection], or [getModel]. *)
Lemma run_alone_getConnection w db :
  run env (w, [TConnection (ConnEnter db)]) [0; 0]
  = ((getConnection env w db).1,
     [TConnection (ConnSettled (getConnection env w db).2)]).
Proof.
  unfold run, getConnection. simpl. unfold step_pool. simpl.
  destruct (getConnection_enter env w db) as [w1 [[attempt u]|o]]; simpl; [|done].
  by destruct (getConnection_resume env w1 db attempt u).
Qed.

Lemma run_alone_getModel w db coll :
  run env (w, [TModel (ModelEnter db coll)]) [0; 0; 0]
  = ((getModel env w db coll).1,
     [TModel (ModelSettled (getModel env w db coll).2)]).
Proof.
  unfold run, getModel, getConnection. simpl. unfold step_pool. simpl.
  destruct (truthy (js_get (models w) (modelKey db coll))); simpl; [done|].
  destruct (getConnection_enter env w db) as [w1 [[attempt u]|o]]; simpl.
  - destruct (getConnection_resume env w1 db attempt u) as [w2 o]. simpl.
    by destruct (getModel_resume w2 db coll o).
  - by destruct (getModel_resume w1 db coll o).
Qed.

End Interleaving.

Section Coalescing.

Variable env : Env.

Lemma run_cons s i schedule : run env s (i :: schedule) = run env (step_pool env s i) schedule.
Proof. reflexivity. Qed.

Lemma run_nil s : run env s [] = s.
Proof. reflexivity. Qed.

Lemma step_pool_model_0 w m t w1 m' :
  step_model env w m = (w1, m') ->
  step_pool env (w, [TModel m; t]) 0 = (w1, [TModel m'; t]).
Proof. intros E. unfold step_pool. simpl. by rewrite E. Qed.

Lemma step_pool_model_1 w m t w1 m' :
  step_model env w m = (w1, m') ->
  step_pool env (w, [t; TModel m]) 1 = (w1, [t; TModel m']).
Proof. intros E. unfold step_pool. simpl. by rewrite E. Qed.

Lemma step_pool_connection_0 w c t w1 c' :
  step_connection env w c = (w1, c') ->
  step_pool env (w, [TConnection c; t]) 0 = (w1, [TConnection c'; t]).
Proof. intros E. unfold step_pool. simpl. by rewrite E. Qed.

Lemma step_pool_connection_1 w c t w1 c' :
  step_connection env w c = (w1, c') ->
  step_pool env (w, [t; TConnection c]) 1 = (w1, [t; TConnection c']).
Proof. intros E. unfold step_pool. simpl. by rewrite E. Qed.

End Coalescing.

(** ** Two calls for one key, under every schedule *)

Section TwoCalls.

Variable env : Env.

Lemma step_pool_first w t0 t1 :
  step_pool env (w, [t0; t1]) 0
  = ((step_task env w t0).1, [(step_task env w t0).2; t1]).
Proof. unfold step_pool. simpl. by destruct (step_task env w t0). Qed.

Lemma step_pool_second w t0 t1 :
  step_pool env (w, [t0; t1]) 1
  = ((step_task env w t1).1, [t0; (step_task env w t1).2]).
Proof. unfold step_pool. simpl. by destruct (step_task env w t1). Qed.

Lemma step_pool_none w t0 t1 i :
  (2 ≤ i)%nat -> step_pool env (w, [t0; t1]) i = (w, [t0; t1]).
Proof. intros H. destruct i as [|[|i]]; [lia|lia|done]. Qed.

Lemma run_app s l1 l2 : run env s (l1 ++ l2)%list = run env (run env s l1) l2.
Proof. apply fold_left_app. Qed.

(** What every turn of either call keeps, holds after every schedule. *)
Lemma run_two (I : World -> Task -> Task -> Prop) :
  (forall w t0 t1, I w t0 t1 -> I (step_task env w t0).1 (step_task env w t0).2 t1) ->
  (forall w t0 t1, I w t0 t1 -> I (step_task env w t1).1 t0 (step_task env w t1).2) ->
  forall schedule w t0 t1, I w t0 t1 ->
  exists w' t0' t1', run env (w, [t0; t1]) schedule = (w', [t0'; t1']) ∧ I w' t0' t1'.
Proof.
  intros H0 H1 schedule.
  induction schedule as [|i schedule IH]; intros w t0 t1 HI.
  - by exists w, t0, t1.
  - rewrite run_cons. destruct i as [|[|i]].
    + rewrite step_pool_first. by apply IH, H0.
    + rewrite step_pool_second. by apply IH, H1.
    + rewrite step_pool_none by lia. by apply IH.
Qed.

(** The same when the second call gets no turn. *)
Lemma run_first (I : World -> Task -> Prop) :
  (forall w t, I w t -> I (step_task env w t).1 (step_task env w t).2) ->
  forall schedule, Forall (fun i => i ≠ 1) schedule ->
  forall w t0 t1, I w t0 ->
  exists w' t0', run env (w, [t0; t1]) schedule = (w', [t0'; t1]) ∧ I w' t0'.
Proof.
  intros H0 schedule Hs.
  induction Hs as [|i schedule Hi Hs IH]; intros w t0 t1 HI.
  - by exists w, t0.
  - rewrite run_cons. destruct i as [|[|i]]; [|done|].
    + rewrite step_pool_first. by apply IH, H0.
    + rewrite step_pool_none by lia. by apply IH.
Qed.

(** Settled calls do nothing more. *)
Lemma run_settled w o0 o1 schedule :
  run env (w, [TModel (ModelSettled o0); TModel (ModelSettled o1)]) schedule
  = (w, [TModel (ModelSettled o0); TModel (ModelSettled o1)]).
Proof.
  destruct (run_two
    (fun w' t0 t1 => w' = w ∧ t0 = TModel (ModelSettled o0) ∧ t1 = TModel (ModelSettled o1)))
    with (schedule := schedule) (w := w)
         (t0 := TModel (ModelSettled o0)) (t1 := TModel (ModelSettled o1))
    as (w' & t0' & t1' & E & -> & -> & ->); try done.
  - by intros ? ? ? (-> & -> & ->).
  - by intros ? ? ? (-> & -> & ->).
Qed.

Lemma run_settled_connections w o0 o1 schedule :
  run env (w, [TConnection (ConnSettled o0); TConnection (ConnSettled o1)]) schedule
  = (w, [TConnection (ConnSettled o0); TConnection (ConnSettled o1)]).
Proof.
  destruct (run_two
    (fun w' t0 t1 =>
       w' = w ∧ t0 = TConnection (ConnSettled o0) ∧ t1 = TConnection (ConnSettled o1)))
    with (schedule := schedule) (w := w)
         (t0 := TConnection (ConnSettled o0)) (t1 := TConnection (ConnSettled o1))
    as (w' & t0' & t1' & E & -> & -> & ->); try done.
  - by intros ? ? ? (-> & -> & ->).
  - by intros ? ? ? (-> & -> & ->).
Qed.

(** *** A call that runs while the other waits *)

Lemma step_call_of w db coll t :
  call_of env db coll w t ->
  call_of env db coll (step_task env w t).1 (step_task env w t).2.
Proof.
  destruct t as [c|m].
  - destruct c as [d|d a u|[v|e]]; simpl; try done.
    + intros ->. unfold getConnection_enter.
      destruct (truthy (js_get (uriMap env) db)) eqn:H1; simpl; [|done].
      destruct (truthy (js_get (connections w) db)) eqn:H2; simpl; done.
    + intros [-> Hu]. unfold getConnection_resume.
      destruct (createConnection env a u) as [c|e] eqn:E; simpl; [|done].
      apply createConnection_Returned in E as (uri & _ & _ & ->).
      by rewrite js_get_insert.
  - destruct m as [d c|d c inner|[v|e]]; simpl; try done.
    + intros [-> ->].
      destruct (truthy (js_get (models w) (modelKey db coll))) eqn:H; simpl; [done|].
      by destruct (getConnection_enter env w db) as [w1 [[a u]|o]].
    + intros [-> ->]. destruct inner as [d'|d' a u|o]; simpl.
      * by destruct (getConnection_enter env w d') as [w1 [[a u]|o]].
      * by destruct (getConnection_resume env w d' a u).
      * destruct (getModel_resume w db coll o) as [w1 [v|e]] eqn:E; simpl; [|done].
        apply getModel_resume_Returned in E as (c & _ & _ & -> & ->). simpl.
        by rewrite js_get_insert.
Qed.

(** *** Two calls of [getModel] past the check *)

Lemma step_connection_registry w c :
  models (step_connection env w c).1 = models w
  ∧ compiled (step_connection env w c).1 = compiled w.
Proof.
  destruct c as [db|db a u|o]; simpl; [| |done].
  - unfold getConnection_enter.
    destruct (negb (truthy (js_get (uriMap env) db))); [done|].
    by destruct (negb (truthy (js_get (connections w) db))).
  - unfold getConnection_resume. by destruct (createConnection env a u).
Qed.

Lemma past_check_mono w w' db coll m :
  (compiled w ≤ compiled w')%nat -> past_check w db coll m -> past_check w' db coll m.
Proof.
  intros H. destruct m as [| |[v|e]]; simpl; try done.
  intros (m & -> & Hm). exists m. split; [done|lia].
Qed.

Lemma overlap_ok_sym n db coll w t0 t1 :
  overlap_ok n db coll w t0 t1 -> overlap_ok n db coll w t1 t0.
Proof.
  intros (a & b & -> & -> & Pa & Pb & Hn & Hd & Hc).
  exists b, a. repeat split; try done.
  - lia.
  - intros vb va Eb Ea E. by apply (Hd va vb Ea Eb).
  - intros H. destruct Hc as [?|?]; [lia|by right|by left].
Qed.

Lemma step_overlap_ok n db coll w t0 t1 :
  overlap_ok n db coll w t0 t1 ->
  overlap_ok n db coll (step_task env w t0).1 (step_task env w t0).2 t1.
Proof.
  intros (a & b & -> & -> & Pa & Pb & Hn & Hd & Hc).
  destruct a as [d c|d c inner|o]; [done| |].
  - destruct Pa as [-> ->].
    assert (Hwait : forall inner' w1,
      models w1 = models w -> compiled w1 = compiled w ->
      overlap_ok n db coll w1 (TModel (ModelAwait db coll inner')) (TModel b)).
    { intros inner' w1 Hm Hk. exists (ModelAwait db coll inner'), b.
      repeat split; try done.
      - apply (past_check_mono w); [lia|done].
      - simpl in *. lia.
      - unfold js_get in *. rewrite Hm. simpl in *. intros H.
        destruct Hc as [?|?]; [done|done|by right]. }
    destruct inner as [d'|d' a u|o].
    + destruct (step_connection_registry w (ConnEnter d')) as [Hm Hk].
      simpl in *. destruct (getConnection_enter env w d') as [w1 [[a u]|o]]; by apply Hwait.
    + destruct (step_connection_registry w (ConnAwait d' a u)) as [Hm Hk].
      simpl in *. destruct (getConnection_resume env w d' a u) as [w1 o]; by apply Hwait.
    + simpl. destruct (getModel_resume w db coll o) as [w1 [v|e]] eqn:E; simpl.
      * apply getModel_resume_Returned in E as (c & _ & _ & -> & ->).
        eexists _, b. repeat split; try done.
        -- simpl. eexists. split; [done|]. simpl. lia.
        -- apply (past_check_mono w); [simpl; lia|done].
        -- simpl in *. lia.
        -- intros va vb [= <-] ->. simpl in Pb. destruct Pb as (mb & -> & Hlt).
           intros [= <-]. simpl in Hlt. lia.
        -- intros _. left. simpl. by rewrite js_get_insert.
      * apply getModel_resume_Thrown in E as ->.
        exists (ModelSettled (Thrown e)), b. repeat split; try done.
        simpl in *. intros H. destruct Hc as [?|?]; [done|done|by right].
  - exists (ModelSettled o), b. by repeat split.
Qed.

(** *** What each call is bound to *)

Lemma step_bound_to attempt uri db coll w t :
  bound_to attempt uri db coll t ->
  bound_to attempt uri db coll (step_task env w t).2.
Proof.
  destruct t as [c|m]; [done|].
  destruct m as [d c|d c inner|[v|e]]; simpl; try done.
  destruct inner as [d'|d' a u|[v|e]]; simpl; try done.
  - intros (-> & -> & -> & -> & ->). unfold getConnection_resume. simpl.
    destruct (endpoint env attempt uri); simpl; [|done].
    by rewrite js_get_insert.
  - intros (-> & -> & ->).
    destruct (switch_schema coll) as [e|s]; simpl; [done|].
    rewrite js_get_insert. by eexists.
Qed.

(** *** Two calls of [getConnection] past the check *)

Lemma attempts_ok_sym o a0 a1 uri db w t0 t1 :
  attempts_ok o a0 a1 uri db w t0 t1 -> attempts_ok o a1 a0 uri db w t1 t0.
Proof.
  intros (H0 & H1 & Ho & Hc). repeat split; try done.
  intros H. destruct Hc as [?|?]; [lia|by right|by left].
Qed.

Lemma step_attempts_ok o a0 a1 uri db w t0 t1 :
  attempts_ok o a0 a1 uri db w t0 t1 ->
  attempts_ok o a0 a1 uri db (step_task env w t0).1 (step_task env w t0).2 t1.
Proof.
  intros (H0 & H1 & Ho & Hc).
  destruct t0 as [c|m]; [|done].
  destruct c as [d|d a u|[v|e]]; simpl in *; try done.
  destruct H0 as (-> & -> & ->). unfold getConnection_resume. simpl.
  destruct (endpoint env a0 uri); simpl.
  - repeat split; try done.
    + by rewrite js_get_insert.
    + intros _. by left.
  - repeat split; try done.
    intros H. destruct Hc as [?|?]; [done|done|by right].
Qed.

(** C1, as amended.  Two calls for one key coalesce through the cache check
    at their start and in no other way, whatever the schedule.

    In sequence: when the second call of [getModel] (of [getConnection])
    gets its first turn after the first call has returned, it returns the
    handle the first call returned and leaves the state as it is.

    At the start: two calls of [getModel] that start one right after the
    other on a configured identity with an uncached accessor are both
    suspended on line 86, on a connection attempt of their own each when the
    connection is uncached too, and holding the cached connection with no
    attempt made when it is cached; two such calls of [getConnection] on an
    uncached connection are both suspended on an attempt of their own.

    Past the check: once two calls of [getModel] for one key are both
    suspended on line 86, then under every schedule, if both return, they
    return two different models, two models have been compiled and the
    accessor cache holds one of them; and if each was suspended on an attempt
    of its own, each model is bound to the connection of that attempt.  Once
    two calls of [getConnection] are suspended on different attempts, then
    under every schedule, if both return, they return the two different
    connections of these attempts, no further attempt is made and the
    connection cache holds one of them. *)
Theorem calls_coalesce_only_in_sequence :
  (forall w db coll s1 s2 w1 v,
     Forall (fun i => i ≠ 1) s1 ->
     run env (w, [TModel (ModelEnter db coll); TModel (ModelEnter db coll)]) s1
     = (w1, [TModel (ModelSettled (Returned v)); TModel (ModelEnter db coll)]) ->
     run env (w, [TModel (ModelEnter db coll); TModel (ModelEnter db coll)])
       (s1 ++ 1 :: s2)%list
     = (w1, [TModel (ModelSettled (Returned v)); TModel (ModelSettled (Returned v))]))
  ∧ (forall w db s1 s2 w1 v,
       Forall (fun i => i ≠ 1) s1 ->
       run env (w, [TConnection (ConnEnter db); TConnection (ConnEnter db)]) s1
       = (w1, [TConnection (ConnSettled (Returned v)); TConnection (ConnEnter db)]) ->
       run env (w, [TConnection (ConnEnter db); TConnection (ConnEnter db)])
         (s1 ++ 1 :: s2)%list
       = (w1, [TConnection (ConnSettled (Returned v));
               TConnection (ConnSettled (Returned v))]))
  ∧ (forall w db coll uri,
       js_get (uriMap env) db = VString uri -> uri ≠ "" ->
       truthy (js_get (models w) (modelKey db coll)) = false ->
       (truthy (js_get (connections w) db) = false ->
        run env (w, [TModel (ModelEnter db coll); TModel (ModelEnter db coll)]) [0; 1]
        = (set_opened (S (S (opened w))) w,
           [TModel (ModelAwait db coll (ConnAwait db (opened w) (VString uri)));
            TModel (ModelAwait db coll (ConnAwait db (S (opened w)) (VString uri)))]))
       ∧ (truthy (js_get (connections w) db) = true ->
          run env (w, [TModel (ModelEnter db coll); TModel (ModelEnter db coll)]) [0; 1]
          = (w,
             [TModel (ModelAwait db coll
                        (ConnSettled (Returned (js_get (connections w) db))));
              TModel (ModelAwait db coll
                        (ConnSettled (Returned (js_get (connections w) db))))])))
  ∧ (forall w db uri,
       js_get (uriMap env) db = VString uri -> uri ≠ "" ->
       truthy (js_get (connections w) db) = false ->
       run env (w, [TConnection (ConnEnter db); TConnection (ConnEnter db)]) [0; 1]
       = (set_opened (S (S (opened w))) w,
          [TConnection (ConnAwait db (opened w) (VString uri));
           TConnection (ConnAwait db (S (opened w)) (VString uri))]))
  ∧ (forall w db coll inner0 inner1 schedule w' v0 v1,
       run env (w, [TModel (ModelAwait db coll inner0);
                    TModel (ModelAwait db coll inner1)]) schedule
       = (w', [TModel (ModelSettled (Returned v0));
               TModel (ModelSettled (Returned v1))]) ->
       v0 ≠ v1
       ∧ (exists m0 m1, v0 = VModel m0 ∧ v1 = VModel m1)
       ∧ compiled w' = S (S (compiled w))
       ∧ (js_get (models w') (modelKey db coll) = v0
          ∨ js_get (models w') (modelKey db coll) = v1))
  ∧ (forall w db coll a0 a1 uri schedule w' v0 v1,
       run env (w, [TModel (ModelAwait db coll (ConnAwait db a0 (VString uri)));
                    TModel (ModelAwait db coll (ConnAwait db a1 (VString uri)))])
         schedule
       = (w', [TModel (ModelSettled (Returned v0));
               TModel (ModelSettled (Returned v1))]) ->
       exists m0 m1,
         v0 = VModel m0 ∧ v1 = VModel m1
         ∧ model_connection m0 = {| conn_id := a0; conn_uri := uri |}
         ∧ model_connection m1 = {| conn_id := a1; conn_uri := uri |})
  ∧ (forall w db a0 a1 uri schedule w' v0 v1,
       a0 ≠ a1 ->
       run env (w, [TConnection (ConnAwait db a0 (VString uri));
                    TConnection (ConnAwait db a1 (VString uri))]) schedule
       = (w', [TConnection (ConnSettled (Returned v0));
               TConnection (ConnSettled (Returned v1))]) ->
       v0 = VConnection {| conn_id := a0; conn_uri := uri |}
       ∧ v1 = VConnection {| conn_id := a1; conn_uri := uri |}
       ∧ v0 ≠ v1
       ∧ opened w' = opened w
       ∧ (js_get (connections w') db = v0 ∨ js_get (connections w') db = v1)).
Proof.
  repeat apply conj.
  - intros w db coll s1 s2 w1 v Hs Hrun.
    destruct (run_first (call_of env db coll) (fun w t => step_call_of w db coll t)
                s1 Hs w (TModel (ModelEnter db coll)) (TModel (ModelEnter db coll)))
      as (w' & t0' & E & Hcall); [done|].
    rewrite Hrun in E. injection E as <- <-. destruct Hcall as [Hv Ht].
    rewrite run_app, Hrun, run_cons, step_pool_second. simpl.
    rewrite Hv, Ht. simpl. apply run_settled.
  - intros w db s1 s2 w1 v Hs Hrun.
    destruct (run_first (call_of env db db) (fun w t => step_call_of w db db t)
                s1 Hs w (TConnection (ConnEnter db)) (TConnection (ConnEnter db)))
      as (w' & t0' & E & Hcall); [done|].
    rewrite Hrun in E. injection E as <- <-. destruct Hcall as (Hu & Hv & Ht).
    rewrite run_app, Hrun, run_cons, step_pool_second. simpl.
    unfold getConnection_enter. rewrite Hu, Hv, Ht. simpl. apply run_settled_connections.
  - intros w db coll uri Huri Hne Hm. split; intros Hc.
    + rewrite run_cons.
      erewrite step_pool_model_0 by (by eapply step_model_enter_fresh).
      rewrite run_cons.
      erewrite step_pool_model_1 by (by eapply step_model_enter_fresh).
      done.
    + assert (E : step_model env w (ModelEnter db coll)
                  = (w, ModelAwait db coll
                          (ConnSettled (Returned (js_get (connections w) db))))).
      { simpl. rewrite Hm. simpl. unfold getConnection_enter.
        rewrite Huri, (truthy_string uri Hne), Hc. done. }
      rewrite run_cons. erewrite step_pool_model_0 by exact E.
      rewrite run_cons. erewrite step_pool_model_1 by exact E.
      done.
  - intros w db uri Huri Hne Hc.
    rewrite run_cons.
    erewrite step_pool_connection_0 by (by eapply step_connection_enter_fresh).
    rewrite run_cons.
    erewrite step_pool_connection_1 by (by eapply step_connection_enter_fresh).
    done.
  - intros w db coll inner0 inner1 schedule w' v0 v1 Hrun.
    destruct (run_two (overlap_ok (compiled w) db coll)
                (step_overlap_ok (compiled w) db coll)
                (fun w t0 t1 H =>
                   overlap_ok_sym _ _ _ _ _ _
                     (step_overlap_ok _ _ _ _ _ _ (overlap_ok_sym _ _ _ _ _ _ H)))
                schedule w (TModel (ModelAwait db coll inner0))
                (TModel (ModelAwait db coll inner1)))
      as (w2 & t0' & t1' & E & a & b & -> & -> & Pa & Pb & Hn & Hd & Hc).
    { exists (ModelAwait db coll inner0), (ModelAwait db coll inner1).
      repeat split; simpl; try done; lia. }
    rewrite Hrun in E. injection E as <- <- <-.
    simpl in *. destruct Pa as (m0 & -> & _), Pb as (m1 & -> & _).
    repeat split.
    + by apply Hd.
    + by exists m0, m1.
    + lia.
    + destruct Hc as [[= E]|[= E]]; [lia|by left|by right].
  - intros w db coll a0 a1 uri schedule w' v0 v1 Hrun.
    destruct (run_two
                (fun _ t0 t1 => bound_to a0 uri db coll t0 ∧ bound_to a1 uri db coll t1))
      with (schedule := schedule) (w := w)
           (t0 := TModel (ModelAwait db coll (ConnAwait db a0 (VString uri))))
           (t1 := TModel (ModelAwait db coll (ConnAwait db a1 (VString uri))))
      as (w2 & t0' & t1' & E & B0 & B1).
    { intros w0 t0 t1 [B0 B1]. split; [by apply step_bound_to|done]. }
    { intros w0 t0 t1 [B0 B1]. split; [done|by apply step_bound_to]. }
    { done. }
    rewrite Hrun in E. injection E as <- <- <-.
    destruct B0 as (m0 & -> & E0), B1 as (m1 & -> & E1). by exists m0, m1.
  - intros w db a0 a1 uri schedule w' v0 v1 Hne Hrun.
    destruct (run_two (attempts_ok (opened w) a0 a1 uri db)
                (step_attempts_ok (opened w) a0 a1 uri db)
                (fun w t0 t1 H =>
                   attempts_ok_sym _ _ _ _ _ _ _ _
                     (step_attempts_ok _ _ _ _ _ _ _ _ (attempts_ok_sym _ _ _ _ _ _ _ _ H)))
                schedule w (TConnection (ConnAwait db a0 (VString uri)))
                (TConnection (ConnAwait db a1 (VString uri))))
      as (w2 & t0' & t1' & E & H0 & H1 & Ho & Hc).
    { repeat split; simpl; try done; lia. }
    rewrite Hrun in E. injection E as <- <- <-.
    simpl in *. subst v0 v1. repeat split; try done.
    + intros [= ?]. done.
    + destruct Hc as [[= E]|[= E]]; [lia|by left|by right].
Qed.

End TwoCalls.

Lemma calls_coalesce_only_in_sequence_witness :
  run online
    (init, [TModel (ModelEnter "ProductsDB" "Products");
            TModel (ModelEnter "ProductsDB" "Products")]) ([0; 0; 0] ++ [1])%list
  = ((run online
        (init, [TModel (ModelEnter "ProductsDB" "Products");
                TModel (ModelEnter "ProductsDB" "Products")]) [0; 0; 0]).1,
     [TModel (ModelSettled (Returned (VModel products_model)));
      TModel (ModelSettled (Returned (VModel products_model)))])
  ∧ (VModel {| model_id := 1;
            model_connection :=
              {| conn_id := 0; conn_uri := "mongodb://client.example/mecazon" |};
            model_name := "Products"; model_schema := productSchema;
            model_collection := "Products" |}
  ≠ VModel {| model_id := 0;
              model_connection :=
                {| conn_id := 1; conn_uri := "mongodb://client.example/mecazon" |};
              model_name := "Products"; model_schema := productSchema;
              model_collection := "Products" |}
  ∧ (exists m0 m1,
       VModel {| model_id := 1;
                 model_connection :=
                   {| conn_id := 0; conn_uri := "mongodb://client.example/mecazon" |};
                 model_name := "Products"; model_schema := productSchema;
                 model_collection := "Products" |} = VModel m0
       ∧ VModel {| model_id := 0;
                   model_connection :=
                     {| conn_id := 1; conn_uri := "mongodb://client.example/mecazon" |};
                   model_name := "Products"; model_schema := productSchema;
                   model_collection := "Products" |} = VModel m1)
  ∧ compiled
      (run online
         (set_opened 2 init,
          [TModel (ModelAwait "ProductsDB" "Products"
                     (ConnAwait "ProductsDB" 0
                        (VString "mongodb://client.example/mecazon")));
           TModel (ModelAwait "ProductsDB" "Products"
                     (ConnAwait "ProductsDB" 1
                        (VString "mongodb://client.example/mecazon")))])
         [1; 0; 1; 0]).1
    = S (S (compiled (set_opened 2 init)))
  ∧ (js_get
       (models
          (run online
             (set_opened 2 init,
              [TModel (ModelAwait "ProductsDB" "Products"
                         (ConnAwait "ProductsDB" 0
                            (VString "mongodb://client.example/mecazon")));
               TModel (ModelAwait "ProductsDB" "Products"
                         (ConnAwait "ProductsDB" 1
                            (VString "mongodb://client.example/mecazon")))])
             [1; 0; 1; 0]).1)
       (modelKey "ProductsDB" "Products")
     = VModel {| model_id := 1;
                 model_connection :=
                   {| conn_id := 0; conn_uri := "mongodb://client.example/mecazon" |};
                 model_name := "Products"; model_schema := productSchema;
                 model_collection := "Products" |}
     ∨ js_get
         (models
            (run online
               (set_opened 2 init,
                [TModel (ModelAwait "ProductsDB" "Products"
                           (ConnAwait "ProductsDB" 0
                              (VString "mongodb://client.example/mecazon")));
                 TModel (ModelAwait "ProductsDB" "Products"
                           (ConnAwait "ProductsDB" 1
                              (VString "mongodb://client.example/mecazon")))])
               [1; 0; 1; 0]).1)
         (modelKey "ProductsDB" "Products")
       = VModel {| model_id := 0;
                   model_connection :=
                     {| conn_id := 1; conn_uri := "mongodb://client.example/mecazon" |};
                   model_name := "Products"; model_schema := productSchema;
                   model_collection := "Products" |})).
Proof.
  split.
  - apply (proj1 (calls_coalesce_only_in_sequence online)
             init "ProductsDB" "Products" [0; 0; 0] []).
    + repeat (constructor; [discriminate|]). constructor.
    + vm_compute. reflexivity.
  - apply (proj1 (proj2 (proj2 (proj2 (proj2
             (calls_coalesce_only_in_sequence online)))))
           (set_opened 2 init) "ProductsDB" "Products"
           (ConnAwait "ProductsDB" 0 (VString "mongodb://client.example/mecazon"))
           (ConnAwait "ProductsDB" 1 (VString "mongodb://client.example/mecazon"))
           [1; 0; 1; 0]).
    vm_compute. reflexivity.
Defined.

(** C1 on the empty caches with both endpoints up: two calls of [getModel]
    for the same key that both start before either connection is there open
    two connections, compile two models and return different handles; two
    such calls of [getConnection] open two connections. *)
Lemma overlapping_calls_not_coalesced :
  (exists w m0 m1,
     run online
       (init, [TModel (ModelEnter "ProductsDB" "Products");
               TModel (ModelEnter "ProductsDB" "Products")]) [0; 1; 0; 0; 1; 1]
     = (w, [TModel (ModelSettled (Returned (VModel m0)));
            TModel (ModelSettled (Returned (VModel m1)))])
     ∧ m0 ≠ m1 ∧ opened w = 2 ∧ compiled w = 2)
  ∧ (exists w c0 c1,
       run online
         (init, [TConnection (ConnEnter "ProductsDB");
                 TConnection (ConnEnter "ProductsDB")]) [0; 1; 0; 1]
       = (w, [TConnection (ConnSettled (Returned (VConnection c0)));
              TConnection (ConnSettled (Returned (VConnection c1)))])
       ∧ c0 ≠ c1 ∧ opened w = 2).
Proof.
  split.
  - do 3 eexists. split; [vm_compute; reflexivity|]. repeat split. discriminate.
  - do 3 eexists. split; [vm_compute; reflexivity|]. repeat split. discriminate.
Qed.

(** ** Accessor operations behind the handlers *)

Lemma first_broken_Some l record k p :
  (k, p) ∈ l -> path_ok p (json_member record k) = false ->
  exists k', first_broken l record = Some k'.
Proof.
  induction l as [|[k0 p0] l IH]; intros Hin Hbad.
  - by apply elem_of_nil in Hin.
  - simpl. destruct (path_ok p0 (json_member record k0)) eqn:E; [|eauto].
    apply elem_of_cons in Hin as [[= <- <-]|Hin]; [congruence|]. by apply IH.
Qed.

(** The validation refuses what breaks the contract. *)
Lemma validate_Violates s record :
  Violates s record -> exists path, validate s record = Some path.
Proof.
  intros [k p Hin Hreq Hmiss | k p m q Hin Hmin Hnum Hlt];
    apply (first_broken_Some _ _ k p Hin).
  - rewrite Hmiss. simpl. by rewrite Hreq.
  - rewrite Hnum. simpl. destruct (path_type p); [done|]. rewrite Hmin.
    destruct (Qle_bool m q) eqn:E; [|done].
    apply Qle_bool_iff in E. by apply Qlt_not_le in Hlt.
Qed.

Lemma find_by_id_None id l :
  (forall d, d ∈ l -> doc_id d ≠ id) -> find_by_id id l = None.
Proof.
  induction l as [|d l IH]; intros H; simpl; [done|].
  destruct (String.eqb (doc_id d) id) eqn:E.
  - apply String.eqb_eq in E. exfalso. eapply H; [by left|done].
  - apply IH. intros d' Hd'. apply H. by right.
Qed.

Section HandlerFacts.

Variable env : Env.

(** A call of [getModel] that has returned a model returns it again, out of
    the cache, and changes nothing. *)
Lemma getModel_again w db coll w1 m :
  getModel env w db coll = (w1, Returned (VModel m)) ->
  getModel env w1 db coll = (w1, Returned (VModel m)).
Proof.
  intros E.
  assert (H : js_get (models w1) (modelKey db coll) = VModel m).
  { destruct (truthy (js_get (models w) (modelKey db coll))) eqn:Ht.
    - rewrite getModel_cached in E by done. by injection E as <- <-.
    - rewrite getModel_uncached in E by done.
      apply getModel_resume_Returned in E as (c & _ & _ & Hv & ->).
      simpl. by rewrite js_get_insert. }
  rewrite getModel_cached; by rewrite H.
Qed.

Lemma getModel_stored w db coll :
  stored (getModel env w db coll).1 = stored w.
Proof.
  destruct (truthy (js_get (models w) (modelKey db coll))) eqn:H;
    [by rewrite getModel_cached|].
  rewrite getModel_uncached by done.
  destruct (getConnection_stored env w db) as (Hs & _ & _).
  destruct (getModel_resume _ _ _ _) as [w1 [v|e]] eqn:E; simpl.
  - by apply getModel_resume_Returned in E as (c & _ & _ & _ & ->).
  - apply getModel_resume_Thrown in E. by subst.
Qed.

(** After a call of [getModel] has returned an accessor, the next call for
    the same pair returns that accessor out of the cache: no connection is
    opened, no model is compiled, and the state is as it was. *)
Theorem getModel_idempotent w db coll w1 m :
  getModel env w db coll = (w1, Returned (VModel m)) ->
  getModel env w1 db coll = (w1, Returned (VModel m))
  ∧ js_get (models w1) (modelKey db coll) = VModel m
  ∧ opened (getModel env w1 db coll).1 = opened w1
  ∧ compiled (getModel env w1 db coll).1 = compiled w1.
Proof.
  intros E. pose proof (getModel_again _ _ _ _ _ E) as E'.
  rewrite E'. repeat split.
  destruct (truthy (js_get (models w1) (modelKey db coll))) eqn:Ht.
  - rewrite getModel_cached in E' by done. by injection E' as ->.
  - rewrite getModel_uncached in E' by done.
    apply getModel_resume_Returned in E' as (c & _ & _ & _ & Hw).
    apply (f_equal compiled) in Hw. simpl in Hw.
    destruct (getConnection_stored env w1 db) as (_ & _ & Hc). lia.
Qed.

(** C9.  Over a resolved accessor, [insertOne] of a record that breaks the
    structural contract of the accessor fails with [ValidationError] and
    changes nothing; the handler of [POST /insert] answers 500 with that
    error, and [listAll], like the [GET /find] that follows, shows the
    documents that were there before. *)
Theorem insert_invalid_not_persisted w db coll w1 m members :
  getModel env w db coll = (w1, Returned (VModel m)) ->
  Violates (model_schema m) (JObject members) ->
  exists path,
    insertOne env w1 m (JObject members) = (w1, inl (ValidationError path))
    ∧ listAll (insertOne env w1 m (JObject members)).1 m = listAll w1 m
    ∧ post_insert env db coll (JObject [("document", JObject members)]) w
        = (w1, {| status := 500; body := BError (ValidationError path) |})
    ∧ get_find env db coll w1
        = (w1, {| status := 200; body := BDocuments (listAll w m) |}).
Proof.
  intros E V. apply validate_Violates in V as [path V]. exists path.
  assert (Ei : insertOne env w1 m (JObject members) = (w1, inl (ValidationError path))).
  { unfold insertOne. by rewrite V. }
  split; [done|]. split; [by rewrite Ei|]. split.
  - unfold post_insert, try_catch. unfold_async. rewrite E. simpl. by rewrite Ei.
  - unfold get_find, try_catch. unfold_async.
    rewrite (getModel_again _ _ _ _ _ E). simpl.
    unfold listAll, documents.
    pose proof (getModel_stored w db coll) as Hs. rewrite E in Hs. simpl in Hs.
    by rewrite Hs.
Qed.

(** C10.  Over a resolved accessor and an identity that no stored document
    has, [deleteById] answers that nothing was found and [updateById] answers
    not-found, neither as an error and neither changing anything; the
    handlers of [DELETE /delete] and [PUT /update] answer 404, not the 500 of
    their [catch]. *)
Theorem unmatched_identity_not_found w db coll w1 m id update :
  getModel env w db coll = (w1, Returned (VModel m)) ->
  (forall d, d ∈ documents w1 m -> doc_id d ≠ id) ->
  json_truthy (Some update) = true ->
  deleteById w1 m id = (w1, None)
  ∧ updateById w1 m id update = (w1, inr None)
  ∧ delete_by_id env db coll id w
      = (w1, {| status := 404;
                body := BText ("Document with ID " +:+ id +:+ " not found.") |})
  ∧ put_update env db coll id (JObject [("update", update)]) w
      = (w1, {| status := 404; body := BMessage "Document not found" |}).
Proof.
  intros E Hid Hu. apply find_by_id_None in Hid.
  assert (Ed : deleteById w1 m id = (w1, None)).
  { unfold deleteById. by rewrite Hid. }
  assert (Eu : updateById w1 m id update = (w1, inr None)).
  { unfold updateById. by rewrite Hid. }
  split; [done|]. split; [done|]. split.
  - unfold delete_by_id, try_catch. unfold_async. rewrite E. simpl. by rewrite Ed.
  - unfold put_update, try_catch.
    change (json_member (JObject [("update", update)]) "update") with (Some update).
    cbv zeta. rewrite Hu. simpl. unfold_async. rewrite E. simpl. by rewrite Eu.
Qed.

End HandlerFacts.

(** ** The properties at concrete inputs *)

Lemma getConnection_idempotent_witness :
  getConnection online (getConnection online init "ProductsDB").1 "ProductsDB"
  = ((getConnection online init "ProductsDB").1,
     Returned (VConnection {| conn_id := 0;
                              conn_uri := "mongodb://client.example/mecazon" |}))
  ∧ js_get (connections (getConnection online init "ProductsDB").1) "ProductsDB"
    = VConnection {| conn_id := 0; conn_uri := "mongodb://client.example/mecazon" |}
  ∧ opened (getConnection online (getConnection online init "ProductsDB").1
              "ProductsDB").1
    = opened (getConnection online init "ProductsDB").1.
Proof.
  apply (getConnection_idempotent online init "ProductsDB").
  vm_compute. reflexivity.
Defined.

Lemma getConnection_failure_not_cached_witness :
  exists w1,
    getConnection offline init "ProductsDB"
    = (w1, Thrown (ConnectionError 0 "mongodb://client.example/mecazon"))
    ∧ connections w1 = connections init
    ∧ truthy (js_get (connections w1) "ProductsDB") = false
    ∧ opened w1 = 1
    ∧ getConnection_enter offline w1 "ProductsDB"
        = (set_opened (S (opened w1)) w1,
           inl (opened w1, VString "mongodb://client.example/mecazon"))
    ∧ getConnection offline w1 "ProductsDB"
        = getConnection_resume offline (set_opened (S (opened w1)) w1) "ProductsDB"
            (opened w1) (VString "mongodb://client.example/mecazon")
    ∧ (endpoint offline (opened w1) "mongodb://client.example/mecazon" = true ->
       exists w2,
         getConnection offline w1 "ProductsDB"
           = (w2, Returned (VConnection
                    {| conn_id := opened w1;
                       conn_uri := "mongodb://client.example/mecazon" |}))
         ∧ connections w2 !! "ProductsDB"
             = Some (VConnection
                       {| conn_id := opened w1;
                          conn_uri := "mongodb://client.example/mecazon" |})).
Proof.
  apply (getConnection_failure_not_cached offline init "ProductsDB"
           "mongodb://client.example/mecazon");
    first [ reflexivity | discriminate ].
Defined.


Lemma Users_Employees_always_fail_witness :
  (exists w1 e,
     getModel online init "UsersEmployeesDB" "Users" = (w1, Thrown e)
     ∧ models w1 = models init
     ∧ (forall c, (getConnection online init "UsersEmployeesDB").2 = Returned c ->
          e = ReferenceError "userSchema"))
  ∧ (exists w2 e, startServer online init = (w2, Exited 1 e)).
Proof.
  apply (Users_Employees_always_fail online init "UsersEmployeesDB" "Users");
    [left|]; reflexivity.
Defined.

Lemma one_widget_documents :
  documents one_widget products_model
  = [ {| doc_id := "oid0"; doc_fields := widget |} ].
Proof. vm_compute. reflexivity. Defined.

Lemma bad_record_Violates : Violates productSchema (JObject bad_record).
Proof.
  apply (Violates_min _ _ "price"
           {| path_type := TNumber; path_required := true;
              path_trim := false; path_min := Some (0 # 1)%Q |}
           (0 # 1)%Q (-1 # 1)%Q).
  - apply list_elem_of_further, list_elem_of_here.
  - reflexivity.
  - reflexivity.
  - reflexivity.
Defined.

Lemma insert_invalid_not_persisted_witness :
  exists path,
    insertOne online one_widget products_model (JObject bad_record)
      = (one_widget, inl (ValidationError path))
    ∧ listAll (insertOne online one_widget products_model (JObject bad_record)).1
        products_model
      = listAll one_widget products_model
    ∧ post_insert online "ProductsDB" "Products"
        (JObject [("document", JObject bad_record)]) one_widget
      = (one_widget, {| status := 500; body := BError (ValidationError path) |})
    ∧ get_find online "ProductsDB" "Products" one_widget
      = (one_widget,
         {| status := 200; body := BDocuments (listAll one_widget products_model) |}).
Proof.
  apply (insert_invalid_not_persisted online one_widget "ProductsDB" "Products"
           one_widget products_model bad_record).
  - vm_compute. reflexivity.
  - exact bad_record_Violates.
Defined.

Lemma unmatched_identity_not_found_witness :
  deleteById one_widget products_model "nonexistent-id" = (one_widget, None)
  ∧ updateById one_widget products_model "nonexistent-id"
      (JObject [("price", JNumber (5 # 1))])
    = (one_widget, inr None)
  ∧ delete_by_id online "ProductsDB" "Products" "nonexistent-id" one_widget
    = (one_widget,
       {| status := 404;
          body := BText ("Document with ID " +:+ "nonexistent-id" +:+ " not found.") |})
  ∧ put_update online "ProductsDB" "Products" "nonexistent-id"
      (JObject [("update", JObject [("price", JNumber (5 # 1))])]) one_widget
    = (one_widget, {| status := 404; body := BMessage "Document not found" |}).
Proof.
  apply (unmatched_identity_not_found online one_widget "ProductsDB" "Products"
           one_widget products_model "nonexistent-id"
           (JObject [("price", JNumber (5 # 1))])).
  - vm_compute. reflexivity.
  - rewrite one_widget_documents. intros d Hd.
    apply list_elem_of_singleton in Hd. subst d. discriminate.
  - reflexivity.
Defined.

Lemma getConnection_unconfigured_witness :
  getConnection online init "InventoryDB"
  = (init, Thrown (UnconfiguredDatabase "InventoryDB")).
Proof.
  apply (getConnection_unconfigured online init "InventoryDB");
    first [ discriminate | reflexivity ].
Defined.

Lemma getModel_propagates_witness :
  getModel offline init "ProductsDB" "Orders"
  = (set_opened 1 init,
     Thrown (ConnectionError 0 "mongodb://client.example/mecazon")).
Proof.
  apply (getModel_propagates offline init "ProductsDB" "Orders"); reflexivity.
Defined.

Lemma getModel_idempotent_witness :
  getModel online one_widget "ProductsDB" "Products"
  = (one_widget, Returned (VModel products_model))
  ∧ js_get (models one_widget) (modelKey "ProductsDB" "Products") = VModel products_model
  ∧ opened (getModel online one_widget "ProductsDB" "Products").1 = opened one_widget
  ∧ compiled (getModel online one_widget "ProductsDB" "Products").1 = compiled one_widget.
Proof.
  apply (getModel_idempotent online one_widget "ProductsDB" "Products").
  vm_compute. reflexivity.
Defined.

(** ** The registry over the life of the process *)

Lemma same_registry_refl w : same_registry w w.
Proof. by repeat split. Qed.

Lemma registry_ok_same env w w' :
  same_registry w w' -> registry_ok env w -> registry_ok env w'.
Proof. unfold registry_ok. by intros (-> & -> & -> & ->). Qed.

Lemma registry_ok_init env : registry_ok env init.
Proof.
  repeat split; simpl; try done; intros k v H; by rewrite lookup_empty in H.
Qed.

(** In a state that satisfies [registry_ok], a falsy read of a cache is a
    missing key. *)
Lemma registry_ok_connections_None env w db :
  registry_ok env w -> truthy (js_get (connections w) db) = false ->
  connections w !! db = None.
Proof.
  intros (Hc & _) Hf. destruct (connections w !! db) as [v|] eqn:L; [|done].
  rewrite (js_get_own _ _ _ L) in Hf. by apply Hc in L as (c & -> & _).
Qed.

Lemma registry_ok_models_None env w db coll :
  registry_ok env w -> truthy (js_get (models w) (modelKey db coll)) = false ->
  models w !! modelKey db coll = None.
Proof.
  intros (_ & Hm & _) Hf.
  destruct (models w !! modelKey db coll) as [v|] eqn:L; [|done].
  rewrite (js_get_own _ _ _ L) in Hf. by apply Hm in L as (? & ? & _ & -> & _).
Qed.

Section RegistryInvariant.

Variable env : Env.

Lemma getConnection_registry_ok w db :
  registry_ok env w -> registry_ok env (getConnection env w db).1.
Proof.
  intros Hok.
  destruct (truthy (js_get (uriMap env) db)) eqn:H1;
    [|by rewrite getConnection_unmapped].
  destruct (truthy (js_get (connections w) db)) eqn:H2;
    [by rewrite getConnection_cached|].
  pose proof (registry_ok_connections_None env w db Hok H2) as Hnone.
  rewrite getConnection_fresh by done. unfold getConnection_resume.
  destruct Hok as (Hc & Hm & Hn & Hs).
  destruct (createConnection _ _ _) as [c|e] eqn:E; simpl.
  - apply createConnection_Returned in E as (uri & Huri & _ & ->).
    repeat split; simpl.
    + intros k v. destruct (decide (db = k)) as [<-|Hne].
      * rewrite lookup_insert_eq. intros [= <-]. eexists. repeat split; simpl; [done|lia].
      * rewrite lookup_insert_ne by done. intros L.
        apply Hc in L as (c & -> & ? & ?). eexists. repeat split; [done|lia].
    + intros k v L. apply Hm in L as (db' & m & -> & -> & L & ?).
      exists db', m. repeat split; try tauto.
      rewrite lookup_insert_ne; [done|]. intros <-. by rewrite Hnone in L.
    + done.
    + rewrite map_size_insert_None by done. lia.
  - repeat split; simpl; try done; [|lia].
    intros k v L. apply Hc in L as (c & -> & ? & ?). eexists. repeat split; [done|lia].
Qed.

Lemma getModel_registry_ok w db coll :
  registry_ok env w -> registry_ok env (getModel env w db coll).1.
Proof.
  intros Hok.
  destruct (truthy (js_get (models w) (modelKey db coll))) eqn:H;
    [by rewrite getModel_cached|].
  pose proof (registry_ok_models_None env w db coll Hok H) as Hnone.
  rewrite getModel_uncached by done.
  pose proof (getConnection_registry_ok w db Hok) as Hok1.
  pose proof (getConnection_models env w db) as Hmodels.
  destruct (getConnection env w db) as [w1 o] eqn:Ec. simpl in *.
  destruct (getModel_resume w1 db coll o) as [w2 [v|e]] eqn:E; simpl.
  - apply getModel_resume_Returned in E as (c & -> & -> & -> & ->).
    apply getConnection_Returned in Ec as (_ & Ec & _).
    assert (Lc : connections w1 !! db = Some (VConnection c)).
    { unfold js_get in Ec. destruct (connections w1 !! db); [by subst|].
      by destruct (inherited db). }
    destruct Hok1 as (Hc & Hm & Hn & Hs). repeat split; simpl; try done.
    + intros k v. destruct (decide (modelKey db "Products" = k)) as [<-|Hne].
      * rewrite lookup_insert_eq. intros [= <-].
        eexists _, _. repeat split; simpl; [done|lia].
      * rewrite lookup_insert_ne by done. intros L.
        apply Hm in L as (db' & m & -> & -> & ? & ? & ? & ? & ?).
        exists db', m. repeat split; try done. lia.
    + rewrite map_size_insert_None by (by rewrite Hmodels). by rewrite Hn.
  - apply getModel_resume_Thrown in E. by subst.
Qed.

Lemma evolves_trans w w' w'' :
  evolves env w w' -> evolves env w' w'' -> evolves env w w''.
Proof.
  intros H1 H2. induction H2.
  - done.
  - by apply evolves_getConnection.
  - by apply evolves_getModel.
  - by eapply evolves_store.
Qed.

Lemma evolves_registry_ok w w' :
  registry_ok env w -> evolves env w w' -> registry_ok env w'.
Proof.
  intros Hok H. induction H.
  - done.
  - by apply getConnection_registry_ok.
  - by apply getModel_registry_ok.
  - by eapply registry_ok_same.
Qed.

(** The accessor operations leave the registry alone. *)
Lemma insertOne_same_registry w m record :
  same_registry w (insertOne env w m record).1.
Proof. unfold insertOne. by destruct (validate _ _). Qed.

Lemma insert_each_same_registry records w m :
  same_registry w (insert_each env w m records).1.
Proof.
  revert w. induction records as [|r records IH]; intros w; simpl;
    [apply same_registry_refl|].
  pose proof (insertOne_same_registry w m r) as (H1 & H2 & H3 & H4).
  destruct (insertOne env w m r) as [w1 [e|d]]; simpl in *; [done|].
  pose proof (IH w1) as (H5 & H6 & H7 & H8).
  destruct (insert_each env w1 m records) as [w2 [e|ds]]; simpl in *;
    repeat split; congruence.
Qed.

Lemma insertMany_same_registry w m records :
  same_registry w (insertMany env w m records).1.
Proof.
  unfold insertMany. destruct (first_invalid _ _); [apply same_registry_refl|].
  apply insert_each_same_registry.
Qed.

Lemma deleteById_same_registry w m id : same_registry w (deleteById w m id).1.
Proof. unfold deleteById. by destruct (find_by_id _ _). Qed.

Lemma updateById_same_registry w m id update :
  same_registry w (updateById w m id update).1.
Proof. unfold updateById. by repeat case_match. Qed.

Lemma walks_ret {A : Type} (a : A) : walks env (mret a).
Proof. intros w. apply evolves_refl. Qed.

Lemma walks_bind {A B : Type} (m : Async A) (k : A -> Async B) :
  walks env m -> (forall a, walks env (k a)) -> walks env (m ≫= k).
Proof.
  intros Hm Hk w. specialize (Hm w). unfold mbind, Async_bind.
  destruct (m w) as [w1 [e|a]]; simpl in *; [done|].
  eapply evolves_trans; [done|apply Hk].
Qed.

Lemma walks_method f v : walks env (method f v).
Proof. intros w. unfold method. destruct v; apply evolves_refl. Qed.

Lemma walks_effect {A : Type} (f : World -> World * (Error + A)) :
  (forall w, same_registry w (f w).1) -> walks env (effect f).
Proof. intros Hf w. eapply evolves_store; [apply evolves_refl|apply Hf]. Qed.

Lemma walks_for_each {A : Type} (l : list A) (body : A -> Async unit) :
  (forall x, walks env (body x)) -> walks env (for_each l body).
Proof.
  intros Hb. induction l as [|x l IH]; simpl; [apply walks_ret|].
  apply walks_bind; [apply Hb|]. intros _. apply IH.
Qed.

Lemma walks_getModel db coll : walks env (await (fun w => getModel env w db coll)).
Proof.
  intros w. unfold await.
  pose proof (evolves_getModel env w w db coll (evolves_refl env w)) as H.
  by destruct (getModel env w db coll) as [w1 [v|e]].
Qed.

Lemma walks_getConnection db : walks env (await (fun w => getConnection env w db)).
Proof.
  intros w. unfold await.
  pose proof (evolves_getConnection env w w db (evolves_refl env w)) as H.
  by destruct (getConnection env w db) as [w1 [v|e]].
Qed.

Lemma walks_try_catch (h : Async Response) w :
  walks env h -> evolves env w (try_catch h w).1.
Proof.
  intros Hh. specialize (Hh w). unfold try_catch.
  by destruct (h w) as [w1 [e|r]].
Qed.

Lemma serve_evolves w r : evolves env w (serve env w r).1.
Proof.
  destruct r; simpl; apply walks_try_catch.
  - apply walks_bind; [apply walks_getModel|]. intros v.
    apply walks_bind; [apply walks_method|]. intros m.
    apply walks_bind; [|intros ?; apply walks_ret].
    apply walks_effect. intros w'. apply same_registry_refl.
  - apply walks_bind; [apply walks_getModel|]. intros v.
    repeat case_match.
    + apply walks_bind; [apply walks_method|]. intros m.
      apply walks_bind; [|intros ?; apply walks_ret].
      apply walks_effect. intros w'. apply insertOne_same_registry.
    + apply walks_bind; [apply walks_method|]. intros m.
      apply walks_bind; [|intros ?; apply walks_ret].
      apply walks_effect. intros w'. apply insertMany_same_registry.
    + apply walks_ret.
  - apply walks_bind; [apply walks_getModel|]. intros v.
    apply walks_bind; [apply walks_method|]. intros m.
    apply walks_bind.
    + apply walks_effect. intros w'.
      pose proof (deleteById_same_registry w' m id) as Hd.
      by destruct (deleteById w' m id).
    + intros [d|]; apply walks_ret.
  - cbv zeta. case_match; [apply walks_ret|].
    apply walks_bind; [apply walks_getModel|]. intros v.
    apply walks_bind; [apply walks_method|]. intros m.
    apply walks_bind.
    + apply walks_effect. intros w'. apply updateById_same_registry.
    + intros [d|]; apply walks_ret.
Qed.

Lemma probe_walks : walks env (probe env).
Proof.
  apply walks_for_each. intros db.
  apply walks_bind; [apply walks_getConnection|]. intros _.
  apply walks_for_each. intros coll.
  apply walks_bind; [apply walks_getModel|]. intros v.
  apply walks_bind; [apply walks_method|]. intros m.
  apply walks_bind; [|intros ?; apply walks_ret].
  apply walks_effect. intros w'.
  destruct (estimatedDocumentCount env m); apply same_registry_refl.
Qed.

Lemma startServer_evolves w : evolves env w (startServer env w).1.
Proof.
  unfold startServer. pose proof (probe_walks w) as H.
  by destruct (probe env w) as [w1 [e|[]]].
Qed.

Lemma reachable_evolves w : reachable env w -> evolves env init w.
Proof.
  induction 1.
  - apply evolves_refl.
  - by apply evolves_getConnection.
  - by apply evolves_getModel.
  - eapply evolves_trans; [done|apply serve_evolves].
  - eapply evolves_trans; [done|apply startServer_evolves].
Qed.

Lemma reachable_registry_ok w : reachable env w -> registry_ok env w.
Proof.
  intros H. eapply evolves_registry_ok; [apply registry_ok_init|].
  by apply reachable_evolves.
Qed.

End RegistryInvariant.

Lemma size_at_most_two (m : gmap string Value) a b :
  (forall k, is_Some (m !! k) -> k = a ∨ k = b) -> (size m ≤ 2)%nat.
Proof.
  intros H.
  assert (Hd : dom m ⊆ ({[ a; b ]} : gset string)).
  { intros k Hk. apply elem_of_dom in Hk.
    apply elem_of_union.
    destruct (H k Hk) as [-> | ->]; [left|right]; by apply elem_of_singleton. }
  apply subseteq_size in Hd. rewrite size_dom in Hd.
  assert (Hb : (size (({[ b ]} : gset string) ∖ {[ a ]}) ≤ 1)%nat).
  { rewrite <-(size_singleton (C:=gset string) b). apply subseteq_size.
    intros k Hk. by apply elem_of_difference in Hk as [Hk _]. }
  rewrite size_union_alt, size_singleton in Hd. lia.
Qed.

Section RegistryLife.

Variable env : Env.

Lemma perform_evolves w c : evolves env w (perform env w c).
Proof.
  destruct c; simpl.
  - apply evolves_getConnection, evolves_refl.
  - apply evolves_getModel, evolves_refl.
  - apply serve_evolves.
  - apply startServer_evolves.
Qed.

Lemma perform_all_evolves calls w : evolves env w (perform_all env w calls).
Proof.
  revert w. induction calls as [|c calls IH]; intros w; simpl.
  - apply evolves_refl.
  - eapply evolves_trans; [apply perform_evolves|apply IH].
Qed.

Lemma perform_reachable w c : reachable env w -> reachable env (perform env w c).
Proof. intros H. destruct c; simpl; by constructor. Qed.

Lemma perform_all_reachable calls w :
  reachable env w -> reachable env (perform_all env w calls).
Proof.
  revert w. induction calls as [|c calls IH]; intros w H; simpl; [done|].
  by apply IH, perform_reachable.
Qed.

(** One call of [getConnection], or of [getModel], only adds to the caches. *)
Lemma getConnection_grows w db :
  registry_ok env w ->
  connections w ⊆ connections (getConnection env w db).1
  ∧ (opened w ≤ opened (getConnection env w db).1)%nat.
Proof.
  intros Hok.
  destruct (truthy (js_get (uriMap env) db)) eqn:H1;
    [|by rewrite getConnection_unmapped].
  destruct (truthy (js_get (connections w) db)) eqn:H2;
    [by rewrite getConnection_cached|].
  pose proof (registry_ok_connections_None env w db Hok H2) as Hnone.
  rewrite getConnection_fresh by done. unfold getConnection_resume.
  destruct (createConnection _ _ _) as [c|e]; simpl; [|split; [done|lia]].
  split; [by apply insert_subseteq|lia].
Qed.

Lemma getModel_grows w db coll :
  registry_ok env w ->
  connections w ⊆ connections (getModel env w db coll).1
  ∧ models w ⊆ models (getModel env w db coll).1
  ∧ (opened w ≤ opened (getModel env w db coll).1)%nat
  ∧ (compiled w ≤ compiled (getModel env w db coll).1)%nat.
Proof.
  intros Hok.
  destruct (truthy (js_get (models w) (modelKey db coll))) eqn:H;
    [by rewrite getModel_cached|].
  pose proof (registry_ok_models_None env w db coll Hok H) as Hnone.
  rewrite getModel_uncached by done.
  destruct (getConnection_grows w db Hok) as [Hc Ho].
  pose proof (getConnection_models env w db) as Hm.
  destruct (getConnection_stored env w db) as (_ & _ & Hn).
  destruct (getConnection env w db) as [w1 o]. simpl in *.
  destruct (getModel_resume w1 db coll o) as [w2 [v|e]] eqn:E; simpl.
  - apply getModel_resume_Returned in E as (c & _ & _ & _ & ->). simpl.
    repeat split; try done; [|lia].
    rewrite <-Hm in Hnone |- *. by apply insert_subseteq.
  - apply getModel_resume_Thrown in E. subst.
    repeat split; try done; [by rewrite Hm|lia].
Qed.

Lemma evolves_grows w w' :
  registry_ok env w -> evolves env w w' ->
  connections w ⊆ connections w' ∧ models w ⊆ models w'
  ∧ (opened w ≤ opened w')%nat ∧ (compiled w ≤ compiled w')%nat.
Proof.
  intros Hok H. induction H as [|w' db H IH|w' db coll H IH|w' w'' H IH Hs].
  - done.
  - pose proof (evolves_registry_ok env w w' Hok H) as Hok'.
    destruct IH as (? & ? & ? & ?).
    destruct (getConnection_grows w' db Hok') as [? ?].
    pose proof (getConnection_models env w' db) as Hm.
    destruct (getConnection_stored env w' db) as (_ & _ & Hn).
    repeat split; [by etrans|by rewrite Hm|lia|lia].
  - pose proof (evolves_registry_ok env w w' Hok H) as Hok'.
    destruct IH as (? & ? & ? & ?).
    destruct (getModel_grows w' db coll Hok') as (? & ? & ? & ?).
    repeat split; [by etrans|by etrans|lia|lia].
  - destruct IH as (? & ? & ? & ?). destruct Hs as (-> & -> & -> & ->). done.
Qed.

(** However many calls and requests are made one after the other, and
    whatever database and collection names they carry, the connection cache
    holds at most the two keys of [uriMap] and the accessor cache at most two
    accessors, and every model ever compiled is in the cache. *)
Theorem registry_bounded calls :
  let w := perform_all env init calls in
  (forall k, is_Some (connections w !! k) -> k = "ProductsDB" ∨ k = "UsersEmployeesDB")
  ∧ (forall k, is_Some (models w !! k) ->
       k = modelKey "ProductsDB" "Products" ∨ k = modelKey "UsersEmployeesDB" "Products")
  ∧ (size (connections w) ≤ 2)%nat ∧ (size (models w) ≤ 2)%nat
  ∧ compiled w = size (models w)
  ∧ (compiled w ≤ 2)%nat.
Proof.
  intros w.
  assert (Hok : registry_ok env w).
  { apply reachable_registry_ok, perform_all_reachable, reachable_init. }
  destruct Hok as (Hc & Hm & Hn & Hs).
  assert (K1 : forall k, is_Some (connections w !! k) ->
                 k = "ProductsDB" ∨ k = "UsersEmployeesDB").
  { intros k [v L]. apply Hc in L as (c & _ & Huri & _).
    by apply uriMap_string in Huri. }
  assert (K2 : forall k, is_Some (models w !! k) ->
                 k = modelKey "ProductsDB" "Products"
                 ∨ k = modelKey "UsersEmployeesDB" "Products").
  { intros k [v L]. apply Hm in L as (db & m & -> & _ & L & _).
    destruct (K1 db) as [-> | ->]; eauto. }
  pose proof (size_at_most_two _ _ _ K1). pose proof (size_at_most_two _ _ _ K2).
  repeat split; try done. lia.
Qed.

(** In every reachable state a cached accessor is a model of [Products] with
    the product schema, bound to the connection that is cached for its
    database identity, and that connection was opened at the URI [uriMap]
    gives for the identity: the documents the accessor reaches are those of
    that URI. *)
Theorem accessor_bound_to_cached_connection w db coll v :
  reachable env w -> models w !! modelKey db coll = Some v ->
  exists m c,
    v = VModel m ∧ coll = "Products"
    ∧ connections w !! db = Some (VConnection c) ∧ model_connection m = c
    ∧ js_get (uriMap env) db = VString (conn_uri c)
    ∧ model_schema m = productSchema
    ∧ collection_of m = (conn_uri c, "Products").
Proof.
  intros Hr L. apply reachable_registry_ok in Hr as (Hc & Hm & _).
  apply Hm in L as (db' & m & Hk & -> & L & _ & Hs & Hcoll & _).
  pose proof L as L'. apply Hc in L' as (c & [= <-] & Huri & _).
  apply modelKey_split in Hk as [-> ->]; [|
    by apply uriMap_string in Huri as [-> | ->]|done].
  exists m, (model_connection m). repeat split; try done.
  unfold collection_of. by rewrite Hcoll.
Qed.

(** From a reachable state on, whatever is done next, nothing cached is ever
    dropped or replaced: the caches after are supersets of the caches
    before, and the two counters never decrease. *)
Theorem caches_only_grow w calls :
  reachable env w ->
  connections w ⊆ connections (perform_all env w calls)
  ∧ models w ⊆ models (perform_all env w calls)
  ∧ (opened w ≤ opened (perform_all env w calls))%nat
  ∧ (compiled w ≤ compiled (perform_all env w calls))%nat.
Proof.
  intros Hr. apply evolves_grows; [by apply reachable_registry_ok|].
  apply perform_all_evolves.
Qed.

End RegistryLife.

(** ** The handlers *)

Section Handlers.

Variable env : Env.

(** Whenever [getModel] fails, each route answers 500 with that error and
    leaves the state [getModel] left, in which no stored document has
    changed; for [PUT /update] this is so once the body carries an update. *)
Theorem handlers_report_getModel_failure w database collection w1 e :
  getModel env w database collection = (w1, Thrown e) ->
  get_find env database collection w = (w1, {| status := 500; body := BError e |})
  ∧ (forall req_body,
       post_insert env database collection req_body w
       = (w1, {| status := 500; body := BError e |}))
  ∧ (forall id,
       delete_by_id env database collection id w
       = (w1, {| status := 500; body := BError e |}))
  ∧ (forall id req_body,
       json_truthy (json_member req_body "update") = true ->
       put_update env database collection id req_body w
       = (w1, {| status := 500; body := BError e |}))
  ∧ stored w1 = stored w ∧ generated w1 = generated w.
Proof.
  intros E. repeat split.
  - unfold get_find, try_catch. unfold_async. by rewrite E.
  - intros req_body. unfold post_insert, try_catch. unfold_async. by rewrite E.
  - intros id. unfold delete_by_id, try_catch. unfold_async. by rewrite E.
  - intros id req_body Hu. unfold put_update, try_catch. cbv zeta. rewrite Hu.
    simpl. unfold_async. by rewrite E.
  - pose proof (getModel_stored env w database collection) as H.
    by rewrite E in H.
  - destruct (truthy (js_get (models w) (modelKey database collection))) eqn:H.
    + rewrite getModel_cached in E by done. by injection E as <-.
    + rewrite getModel_uncached in E by done.
      apply getModel_resume_Thrown in E. subst.
      by destruct (getConnection_stored env w database) as (_ & ? & _).
Qed.

(** The two routes that read the body check it at different times.  [PUT
    /update] without an update answers 400 before it touches the registry:
    the state is unchanged.  [POST /insert] with neither a document nor an
    array of documents resolves the model first: it answers 400 only when
    [getModel] returns, answers 500 with the error of [getModel] otherwise,
    and in both cases leaves the state [getModel] left. *)
Theorem body_checks_order w database collection id req_body :
  (json_truthy (json_member req_body "update") = false ->
   put_update env database collection id req_body w
   = (w, {| status := 400; body := BBadRequest "Update data not provided" |}))
  ∧ (json_truthy (json_member req_body "document") = false ->
     json_truthy (json_member req_body "documents")
       && is_array (json_member req_body "documents") = false ->
     post_insert env database collection req_body w
     = ((getModel env w database collection).1,
        match (getModel env w database collection).2 with
        | Returned _ =>
            {| status := 400;
               body := BBadRequest
                 "Request body must contain either 'document' or 'documents' as array" |}
        | Thrown e => {| status := 500; body := BError e |}
        end)).
Proof.
  split.
  - intros Hu. unfold put_update, try_catch. cbv zeta. by rewrite Hu.
  - intros Hd Hds. unfold post_insert, try_catch. unfold_async.
    destruct (getModel env w database collection) as [w1 [v|e]]; simpl; [|done].
    by rewrite Hd, Hds.
Qed.

(** When the body of [POST /insert] carries a truthy [document], the member
    [documents] is never read: the answer and the state are those of the
    request that carries the document alone. *)
Theorem post_insert_document_first w database collection req_body d :
  json_member req_body "document" = Some d ->
  json_truthy (Some d) = true ->
  post_insert env database collection req_body w
  = post_insert env database collection (JObject [("document", d)]) w.
Proof.
  intros Hm Ht. unfold post_insert, try_catch. unfold_async.
  change (json_member (JObject [("document", d)]) "document") with (Some d).
  rewrite Hm, Ht. done.
Qed.

End Handlers.

Lemma handlers_report_getModel_failure_witness :
  get_find online "InventoryDB" "Products" init
  = (init, {| status := 500; body := BError (UnconfiguredDatabase "InventoryDB") |})
  ∧ (forall req_body,
       post_insert online "InventoryDB" "Products" req_body init
       = (init, {| status := 500; body := BError (UnconfiguredDatabase "InventoryDB") |}))
  ∧ (forall id,
       delete_by_id online "InventoryDB" "Products" id init
       = (init, {| status := 500; body := BError (UnconfiguredDatabase "InventoryDB") |}))
  ∧ (forall id req_body,
       json_truthy (json_member req_body "update") = true ->
       put_update online "InventoryDB" "Products" id req_body init
       = (init, {| status := 500; body := BError (UnconfiguredDatabase "InventoryDB") |}))
  ∧ stored init = stored init ∧ generated init = generated init.
Proof.
  apply (handlers_report_getModel_failure online init "InventoryDB" "Products").
  reflexivity.
Defined.

Lemma body_checks_order_witness :
  put_update online "InventoryDB" "Products" "oid0" (JObject []) init
  = (init, {| status := 400; body := BBadRequest "Update data not provided" |})
  ∧ post_insert online "InventoryDB" "Products" (JObject []) init
    = (init, {| status := 500; body := BError (UnconfiguredDatabase "InventoryDB") |}).
Proof.
  split.
  - apply (proj1 (body_checks_order online init "InventoryDB" "Products" "oid0"
                    (JObject []))).
    reflexivity.
  - apply (proj2 (body_checks_order online init "InventoryDB" "Products" "oid0"
                    (JObject []))); reflexivity.
Defined.

Lemma post_insert_document_first_witness :
  post_insert online "ProductsDB" "Products"
    (JObject [("documents", JArray [JObject bad_record]); ("document", JObject widget)])
    init
  = post_insert online "ProductsDB" "Products"
      (JObject [("document", JObject widget)]) init.
Proof.
  apply (post_insert_document_first online init "ProductsDB" "Products"
           (JObject [("documents", JArray [JObject bad_record]);
                     ("document", JObject widget)])
           (JObject widget)); reflexivity.
Defined.

(** ** The registry functions, call by call *)

Lemma uriMap_ProductsDB env :
  js_get (uriMap env) "ProductsDB" = env_value (MONGO_CLIENT_URI env).
Proof. apply js_get_insert. Qed.

Lemma uriMap_UsersEmployeesDB env :
  js_get (uriMap env) "UsersEmployeesDB" = env_value (MONGO_SERVER_URI env).
Proof. unfold uriMap. rewrite js_get_insert_ne by done. apply js_get_insert. Qed.

Lemma not_inherited_configured env db : configured env db -> inherited db = false.
Proof. intros H. by apply configured_names in H as [-> | ->]. Qed.

Section Calls.

Variable env : Env.

(** The first call for a configured database identity whose endpoint is up
    opens one connection at the URI of [uriMap], caches it under the
    identity and returns it; nothing else changes. *)
Theorem getConnection_establishes w db uri :
  js_get (uriMap env) db = VString uri -> uri ≠ "" ->
  truthy (js_get (connections w) db) = false ->
  endpoint env (opened w) uri = true ->
  exists w1,
    getConnection env w db
    = (w1, Returned (VConnection {| conn_id := opened w; conn_uri := uri |}))
    ∧ connections w1
      = <[ db := VConnection {| conn_id := opened w; conn_uri := uri |} ]> (connections w)
    ∧ opened w1 = S (opened w)
    ∧ models w1 = models w ∧ compiled w1 = compiled w
    ∧ stored w1 = stored w ∧ generated w1 = generated w.
Proof.
  intros Huri Hne Hc Hok.
  assert (Ht : truthy (js_get (uriMap env) db) = true)
    by (rewrite Huri; by apply truthy_string).
  eexists. rewrite getConnection_fresh by done. unfold getConnection_resume.
  rewrite Huri. simpl. rewrite Hok. simpl. rewrite js_get_insert. done.
Qed.

(** Once [getConnection] has handed a connection to an uncached call of
    [getModel] for [Products], the call compiles one model of the product
    schema on that connection, for the collection [Products], caches it under
    the key of the pair and returns it; the connection cache is as
    [getConnection] left it. *)
Theorem getModel_compiles w db w0 c :
  truthy (js_get (models w) (modelKey db "Products")) = false ->
  getConnection env w db = (w0, Returned (VConnection c)) ->
  exists w1,
    getModel env w db "Products"
    = (w1, Returned (VModel {| model_id := compiled w; model_connection := c;
                               model_name := "Products"; model_schema := productSchema;
                               model_collection := "Products" |}))
    ∧ models w1
      = <[ modelKey db "Products" :=
             VModel {| model_id := compiled w; model_connection := c;
                       model_name := "Products"; model_schema := productSchema;
                       model_collection := "Products" |} ]> (models w)
    ∧ compiled w1 = S (compiled w)
    ∧ connections w1 = connections w0 ∧ opened w1 = opened w0
    ∧ stored w1 = stored w.
Proof.
  intros Hm Ec.
  pose proof (getConnection_models env w db) as Hmodels.
  destruct (getConnection_stored env w db) as (Hs & _ & Hn).
  rewrite Ec in Hmodels, Hs, Hn. simpl in *.
  eexists. rewrite getModel_uncached by done. rewrite Ec. simpl.
  rewrite js_get_insert, Hn. split; [reflexivity|]. simpl.
  rewrite Hmodels. repeat split; done.
Qed.

(** The name of an inherited member never yields an accessor: in every
    reachable state [getModel] with such a database identity fails, with
    [TypeError] for [Products] since the inherited member has no [model]
    method, and leaves the state as it was. *)
Theorem inherited_names_yield_no_accessor w db coll :
  reachable env w -> inherited db = true ->
  getConnection env w db = (w, Returned (VBuiltin db))
  ∧ exists e,
      getModel env w db coll = (w, Thrown e)
      ∧ (coll = "Products" -> e = TypeError "connection.model").
Proof.
  intros Hr Hi. pose proof (reachable_registry_ok env w Hr) as Hok.
  pose proof (reachable_caches_ok env w Hr) as [Hc Hm].
  assert (Hnc : connections w !! db = None).
  { destruct (connections w !! db) as [v|] eqn:L; [|done].
    apply Hc in L as [Hdb _]. apply not_inherited_configured in Hdb. congruence. }
  assert (Hn1 : db ≠ "ProductsDB") by (by intros ->).
  assert (Hn2 : db ≠ "UsersEmployeesDB") by (by intros ->).
  pose proof (getConnection_inherited env w db Hi Hnc Hn1 Hn2) as Ec.
  split; [done|].
  assert (Hnm : truthy (js_get (models w) (modelKey db coll)) = false).
  { destruct (models w !! modelKey db coll) as [v|] eqn:L;
      [|by rewrite js_get_models_None].
    apply Hm in L as (db' & m & Hdb & Hk & _).
    apply modelKey_split in Hk as [-> _];
      [|by eapply configured_no_hyphen|done].
    apply not_inherited_configured in Hdb. congruence. }
  rewrite getModel_uncached, Ec by done. simpl.
  unfold switch_schema. repeat case_match; simplify_eq; eexists; split; try done.
  all: intros ->; done.
Qed.

(** A key of [uriMap] whose environment variable is unset or empty is
    refused like an unknown identity, in every state and with no connection
    attempt; and [startServer], which asks for [ProductsDB] first, then exits
    at once with that error, the state unchanged. *)
Theorem unset_variable_is_unmapped w :
  (MONGO_CLIENT_URI env = None ∨ MONGO_CLIENT_URI env = Some "" ->
   getConnection env w "ProductsDB" = (w, Thrown (UnconfiguredDatabase "ProductsDB"))
   ∧ startServer env w = (w, Exited 1 (UnconfiguredDatabase "ProductsDB")))
  ∧ (MONGO_SERVER_URI env = None ∨ MONGO_SERVER_URI env = Some "" ->
     getConnection env w "UsersEmployeesDB"
     = (w, Thrown (UnconfiguredDatabase "UsersEmployeesDB"))).
Proof.
  split; intros H.
  - assert (E : getConnection env w "ProductsDB"
                = (w, Thrown (UnconfiguredDatabase "ProductsDB"))).
    { apply getConnection_unmapped. rewrite uriMap_ProductsDB.
      by destruct H as [-> | ->]. }
    split; [done|].
    unfold startServer, probe.
    change testDatabases with ["ProductsDB"; "UsersEmployeesDB"].
    unfold for_each, probe_database. unfold_async. by rewrite E.
  - apply getConnection_unmapped. rewrite uriMap_UsersEmployeesDB.
    by destruct H as [-> | ->].
Qed.

(** A call touches its own keys only: [getModel] for a pair leaves every
    other key of the accessor cache and every key of the connection cache
    but that of its database identity as they were, and neither function
    changes the stored documents. *)
Theorem calls_touch_their_own_keys w db coll :
  (forall k, k ≠ db ->
     connections (getConnection env w db).1 !! k = connections w !! k)
  ∧ models (getConnection env w db).1 = models w
  ∧ (forall k, k ≠ db ->
       connections (getModel env w db coll).1 !! k = connections w !! k)
  ∧ (forall k, k ≠ modelKey db coll ->
       models (getModel env w db coll).1 !! k = models w !! k)
  ∧ stored (getConnection env w db).1 = stored w
  ∧ stored (getModel env w db coll).1 = stored w.
Proof.
  assert (F : forall k, k ≠ db ->
            connections (getConnection env w db).1 !! k = connections w !! k).
  { intros k Hk.
    destruct (truthy (js_get (uriMap env) db)) eqn:H1;
      [|by rewrite getConnection_unmapped].
    destruct (truthy (js_get (connections w) db)) eqn:H2;
      [by rewrite getConnection_cached|].
    rewrite getConnection_fresh by done. unfold getConnection_resume.
    destruct (createConnection _ _ _); simpl; [|done].
    by rewrite lookup_insert_ne. }
  split; [done|]. split; [apply getConnection_models|]. split; [|split].
  - intros k Hk.
    destruct (truthy (js_get (models w) (modelKey db coll))) eqn:H;
      [by rewrite getModel_cached|].
    rewrite getModel_uncached by done.
    rewrite getModel_resume_connections. by apply F.
  - intros k Hk. by apply getModel_frame.
  - split; [apply getConnection_stored|apply getModel_stored].
Qed.

End Calls.

Lemma getConnection_establishes_witness :
  exists w1,
    getConnection online init "UsersEmployeesDB"
    = (w1, Returned (VConnection
             {| conn_id := 0; conn_uri := "mongodb://server.example/mecazon" |}))
    ∧ connections w1
      = <[ "UsersEmployeesDB" :=
             VConnection {| conn_id := 0;
                            conn_uri := "mongodb://server.example/mecazon" |} ]>
          (connections init)
    ∧ opened w1 = 1
    ∧ models w1 = models init ∧ compiled w1 = compiled init
    ∧ stored w1 = stored init ∧ generated w1 = generated init.
Proof.
  apply (getConnection_establishes online init "UsersEmployeesDB"
           "mongodb://server.example/mecazon");
    first [ reflexivity | discriminate ].
Defined.

Lemma getModel_compiles_witness :
  exists w1,
    getModel online init "ProductsDB" "Products"
    = (w1, Returned (VModel products_model))
    ∧ models w1 = <[ modelKey "ProductsDB" "Products" := VModel products_model ]> (models init)
    ∧ compiled w1 = 1
    ∧ connections w1 = connections (getConnection online init "ProductsDB").1
    ∧ opened w1 = opened (getConnection online init "ProductsDB").1
    ∧ stored w1 = stored init.
Proof.
  apply (getModel_compiles online init "ProductsDB"
           (getConnection online init "ProductsDB").1
           {| conn_id := 0; conn_uri := "mongodb://client.example/mecazon" |});
    reflexivity.
Defined.

Lemma inherited_names_yield_no_accessor_witness :
  getConnection online one_widget "toString" = (one_widget, Returned (VBuiltin "toString"))
  ∧ exists e,
      getModel online one_widget "toString" "Products" = (one_widget, Thrown e)
      ∧ ("Products" = "Products" -> e = TypeError "connection.model").
Proof.
  apply (inherited_names_yield_no_accessor online one_widget "toString" "Products").
  - apply (reachable_serve online init
             (POST_insert "ProductsDB" "Products"
                (JObject [("document", JObject widget)]))).
    apply reachable_init.
  - reflexivity.
Defined.

(** ** The start-up probe, step by step *)

Section Probe.

Variable env : Env.

Lemma getConnection_opens w db uri :
  js_get (uriMap env) db = VString uri -> uri ≠ "" ->
  truthy (js_get (connections w) db) = false ->
  endpoint env (opened w) uri = true ->
  getConnection env w db
  = (set_connections
       <[ db := VConnection {| conn_id := opened w; conn_uri := uri |} ]>
       (set_opened (S (opened w)) w),
     Returned (VConnection {| conn_id := opened w; conn_uri := uri |})).
Proof.
  intros Huri Hne Hc Hok.
  assert (Ht : truthy (js_get (uriMap env) db) = true)
    by (rewrite Huri; by apply truthy_string).
  rewrite getConnection_fresh by done. unfold getConnection_resume.
  rewrite Huri. simpl. rewrite Hok. simpl. by rewrite js_get_insert.
Qed.

(** The probe of one collection fails with the failure of [getModel], or
    with that of the count. *)
Lemma probe_collection_Thrown w db coll w1 e :
  getModel env w db coll = (w1, Thrown e) ->
  probe_collection env db coll w = (w1, inl e).
Proof. intros E. unfold probe_collection. unfold_async. by rewrite E. Qed.

Lemma probe_collection_Returned w db coll w1 m :
  getModel env w db coll = (w1, Returned (VModel m)) ->
  probe_collection env db coll w
  = (w1, match estimatedDocumentCount env m with
         | Some _ => inr tt
         | None => inl (DriverError "estimatedDocumentCount")
         end).
Proof.
  intros E. unfold probe_collection. unfold_async. rewrite E. simpl.
  by destruct (estimatedDocumentCount env m).
Qed.

Lemma startServer_unfold w :
  startServer env w
  = match getConnection env w "ProductsDB" with
    | (w1, Thrown e) => (w1, Exited 1 e)
    | (w1, Returned _) =>
        match probe_collection env "ProductsDB" "Products" w1 with
        | (w2, inl e) => (w2, Exited 1 e)
        | (w2, inr _) =>
            match getConnection env w2 "UsersEmployeesDB" with
            | (w3, Thrown e) => (w3, Exited 1 e)
            | (w3, Returned _) =>
                match probe_collection env "UsersEmployeesDB" "Users" w3 with
                | (w4, inl e) => (w4, Exited 1 e)
                | (w4, inr _) =>
                    match probe_collection env "UsersEmployeesDB" "Employees" w4 with
                    | (w5, inl e) => (w5, Exited 1 e)
                    | (w5, inr _) => (w5, Listening)
                    end
                end
            end
        end
    end.
Proof.
  unfold startServer, probe.
  change testDatabases with ["ProductsDB"; "UsersEmployeesDB"].
  unfold for_each, probe_database.
  change (testCollections "ProductsDB") with ["Products"].
  change (testCollections "UsersEmployeesDB") with ["Users"; "Employees"].
  unfold for_each. unfold_async.
  destruct (getConnection env w "ProductsDB") as [w1 [c|e]]; [|done].
  destruct (probe_collection env "ProductsDB" "Products" w1) as [w2 [e|[]]]; [done|].
  destruct (getConnection env w2 "UsersEmployeesDB") as [w3 [c'|e]]; [|done].
  destruct (probe_collection env "UsersEmployeesDB" "Users" w3) as [w4 [e|[]]]; [done|].
  by destruct (probe_collection env "UsersEmployeesDB" "Employees" w4) as [w5 [e|[]]].
Qed.

(** [startServer] stops at the first step that fails: it exits with the
    error of that step, in the state that step left, and runs none of the
    later steps.  The steps are, in this order, the connection to
    [ProductsDB], the model of [Products], its document count, the
    connection to [UsersEmployeesDB], and the model of [Users]. *)
Theorem startServer_first_failure w :
  (forall w1 e,
     getConnection env w "ProductsDB" = (w1, Thrown e) ->
     startServer env w = (w1, Exited 1 e))
  ∧ (forall w1 c w2 e,
       getConnection env w "ProductsDB" = (w1, Returned c) ->
       getModel env w1 "ProductsDB" "Products" = (w2, Thrown e) ->
       startServer env w = (w2, Exited 1 e))
  ∧ (forall w1 c w2 m,
       getConnection env w "ProductsDB" = (w1, Returned c) ->
       getModel env w1 "ProductsDB" "Products" = (w2, Returned (VModel m)) ->
       estimatedDocumentCount env m = None ->
       startServer env w = (w2, Exited 1 (DriverError "estimatedDocumentCount")))
  ∧ (forall w1 c w2 m n w3 e,
       getConnection env w "ProductsDB" = (w1, Returned c) ->
       getModel env w1 "ProductsDB" "Products" = (w2, Returned (VModel m)) ->
       estimatedDocumentCount env m = Some n ->
       getConnection env w2 "UsersEmployeesDB" = (w3, Thrown e) ->
       startServer env w = (w3, Exited 1 e))
  ∧ (forall w1 c w2 m n w3 c' w4 e,
       getConnection env w "ProductsDB" = (w1, Returned c) ->
       getModel env w1 "ProductsDB" "Products" = (w2, Returned (VModel m)) ->
       estimatedDocumentCount env m = Some n ->
       getConnection env w2 "UsersEmployeesDB" = (w3, Returned c') ->
       getModel env w3 "UsersEmployeesDB" "Users" = (w4, Thrown e) ->
       startServer env w = (w4, Exited 1 e)).
Proof.
  repeat split.
  - intros w1 e E1. by rewrite startServer_unfold, E1.
  - intros w1 c w2 e E1 E2. rewrite startServer_unfold, E1.
    by rewrite (probe_collection_Thrown _ _ _ _ _ E2).
  - intros w1 c w2 m E1 E2 E3. rewrite startServer_unfold, E1.
    by rewrite (probe_collection_Returned _ _ _ _ _ E2), E3.
  - intros w1 c w2 m n w3 e E1 E2 E3 E4. rewrite startServer_unfold, E1.
    by rewrite (probe_collection_Returned _ _ _ _ _ E2), E3, E4.
  - intros w1 c w2 m n w3 c' w4 e E1 E2 E3 E4 E5. rewrite startServer_unfold, E1.
    rewrite (probe_collection_Returned _ _ _ _ _ E2), E3, E4.
    by rewrite (probe_collection_Thrown _ _ _ _ _ E5).
Qed.

Lemma getModel_resume_Products w db c :
  getModel_resume w db "Products" (Returned (VConnection c))
  = (set_models
       <[ modelKey db "Products" :=
            VModel {| model_id := compiled w; model_connection := c;
                      model_name := "Products"; model_schema := productSchema;
                      model_collection := "Products" |} ]>
       (set_compiled (S (compiled w)) w),
     Returned (VModel {| model_id := compiled w; model_connection := c;
                         model_name := "Products"; model_schema := productSchema;
                         model_collection := "Products" |})).
Proof.
  unfold getModel_resume, switch_schema, connection_model. simpl.
  by rewrite js_get_insert.
Qed.

Lemma getModel_on_connection w db coll c :
  truthy (js_get (uriMap env) db) = true ->
  js_get (connections w) db = VConnection c ->
  truthy (js_get (models w) (modelKey db coll)) = false ->
  getModel env w db coll
  = getModel_resume w db coll (Returned (VConnection c)).
Proof.
  intros Hu Hc Hm. rewrite getModel_uncached by done.
  rewrite getConnection_cached; rewrite ?Hc; done.
Qed.

(** With both variables set, both endpoints up and the count of [Products]
    answered, [startServer] run on the empty caches opens the two
    connections, compiles and caches the model of [Products], and then exits
    on the read of the undeclared [userSchema]: [app.listen] is not reached
    and the collection [Employees] is never probed. *)
Theorem startServer_stops_at_Users u1 u2 n :
  MONGO_CLIENT_URI env = Some u1 -> u1 ≠ "" ->
  MONGO_SERVER_URI env = Some u2 -> u2 ≠ "" ->
  endpoint env 0 u1 = true -> endpoint env 1 u2 = true ->
  estimatedDocumentCount env
    {| model_id := 0; model_connection := {| conn_id := 0; conn_uri := u1 |};
       model_name := "Products"; model_schema := productSchema;
       model_collection := "Products" |} = Some n ->
  exists w,
    startServer env init = (w, Exited 1 (ReferenceError "userSchema"))
    ∧ connections w
      = <[ "UsersEmployeesDB" := VConnection {| conn_id := 1; conn_uri := u2 |} ]>
          (<[ "ProductsDB" := VConnection {| conn_id := 0; conn_uri := u1 |} ]> ∅)
    ∧ models w
      = <[ modelKey "ProductsDB" "Products" :=
             VModel {| model_id := 0;
                       model_connection := {| conn_id := 0; conn_uri := u1 |};
                       model_name := "Products"; model_schema := productSchema;
                       model_collection := "Products" |} ]> ∅
    ∧ opened w = 2 ∧ compiled w = 1 ∧ stored w = ∅.
Proof.
  intros H1 Hn1 H2 Hn2 Hok0 Hok1 Hcount.
  assert (Hu1 : js_get (uriMap env) "ProductsDB" = VString u1)
    by (by rewrite uriMap_ProductsDB, H1).
  assert (Hu2 : js_get (uriMap env) "UsersEmployeesDB" = VString u2)
    by (by rewrite uriMap_UsersEmployeesDB, H2).
  pose proof (truthy_string u1 Hn1) as Ht1.
  pose proof (truthy_string u2 Hn2) as Ht2.
  eexists. rewrite startServer_unfold.
  rewrite (getConnection_opens init "ProductsDB" u1) by done.
  erewrite probe_collection_Returned; cycle 1.
  { erewrite getModel_on_connection;
      [|by rewrite Hu1|simpl; apply js_get_insert|done].
    apply getModel_resume_Products. }
  simpl. rewrite Hcount.
  rewrite (getConnection_opens _ "UsersEmployeesDB" u2)
    by (simpl; rewrite ?js_get_insert_ne by done; done).
  erewrite probe_collection_Thrown; cycle 1.
  { erewrite getModel_on_connection;
      [|by rewrite Hu2|simpl; apply js_get_insert|simpl; by rewrite js_get_insert_ne].
    reflexivity. }
  simpl. done.
Qed.

End Probe.

Lemma startServer_stops_at_Users_witness :
  exists w,
    startServer online init = (w, Exited 1 (ReferenceError "userSchema"))
    ∧ connections w
      = <[ "UsersEmployeesDB" :=
             VConnection {| conn_id := 1; conn_uri := "mongodb://server.example/mecazon" |} ]>
          (<[ "ProductsDB" :=
                VConnection {| conn_id := 0;
                               conn_uri := "mongodb://client.example/mecazon" |} ]> ∅)
    ∧ models w = <[ modelKey "ProductsDB" "Products" := VModel products_model ]> ∅
    ∧ opened w = 2 ∧ compiled w = 1 ∧ stored w = ∅.
Proof.
  apply (startServer_stops_at_Users online "mongodb://client.example/mecazon"
           "mongodb://server.example/mecazon" 0);
    first [ reflexivity | discriminate ].
Defined.

(** ** Calls in flight, under every schedule *)

Lemma truthy_VString uri : truthy (VString uri) = true -> uri ≠ "".
Proof. simpl. intros H ->. done. Qed.

Lemma sum_list_insert (l : list nat) i x y :
  l !! i = Some x -> (sum_list (<[ i := y ]> l) + x = sum_list l + y)%nat.
Proof.
  revert i. induction l as [|z l IH]; intros [|i] H; simpl in *; try done.
  - injection H as ->. lia.
  - specialize (IH i H). lia.
Qed.

Lemma sum_list_le_length (l : list nat) :
  (forall x, x ∈ l -> (x ≤ 1)%nat) -> (sum_list l ≤ length l)%nat.
Proof.
  induction l as [|x l IH]; intros H; simpl; [done|].
  assert (x ≤ 1)%nat by (apply H; by left).
  assert (sum_list l ≤ length l)%nat by (apply IH; intros y Hy; apply H; by right).
  lia.
Qed.

Section Schedules.

Variable env : Env.

Lemma getConnection_enter_opened w db :
  match getConnection_enter env w db with
  | (w1, inl _) => opened w1 = S (opened w) ∧ compiled w1 = compiled w
  | (w1, inr _) => w1 = w
  end.
Proof. unfold getConnection_enter. by repeat case_match; simplify_eq. Qed.

Lemma getConnection_resume_opened w db attempt u :
  opened (getConnection_resume env w db attempt u).1 = opened w
  ∧ compiled (getConnection_resume env w db attempt u).1 = compiled w.
Proof. unfold getConnection_resume. by destruct (createConnection _ _ _). Qed.

Lemma getModel_resume_opened w db coll o :
  opened (getModel_resume w db coll o).1 = opened w
  ∧ (compiled (getModel_resume w db coll o).1 ≤ S (compiled w))%nat.
Proof.
  destruct (getModel_resume w db coll o) as [w1 [v|e]] eqn:E; simpl.
  - apply getModel_resume_Returned in E as (c & _ & _ & _ & ->). simpl. lia.
  - apply getModel_resume_Thrown in E. subst. lia.
Qed.

(** One turn of a call: the attempts and the compilations it spends come
    out of what it had left. *)
Lemma step_task_work w t :
  (opened (step_task env w t).1 + opens_left (step_task env w t).2
   ≤ opened w + opens_left t)%nat
  ∧ (compiled (step_task env w t).1 + compiles_left (step_task env w t).2
     ≤ compiled w + compiles_left t)%nat.
Proof.
  destruct t as [c|m].
  - destruct c as [db|db a u|o]; simpl.
    + pose proof (getConnection_enter_opened w db) as H.
      destruct (getConnection_enter env w db) as [w1 [[a u]|o]]; simpl;
        [destruct H; lia|subst; lia].
    + destruct (getConnection_resume_opened w db a u) as [H1 H2].
      destruct (getConnection_resume env w db a u). simpl in *. lia.
    + lia.
  - destruct m as [db coll|db coll inner|o]; simpl.
    + destruct (truthy (js_get (models w) (modelKey db coll))); simpl; [lia|].
      pose proof (getConnection_enter_opened w db) as H.
      destruct (getConnection_enter env w db) as [w1 [[a u]|o]]; simpl;
        [destruct H; lia|subst; lia].
    + destruct inner as [db'|db' a u|o]; simpl.
      * pose proof (getConnection_enter_opened w db') as H.
        destruct (getConnection_enter env w db') as [w1 [[a u]|o]]; simpl;
          [destruct H; lia|subst; lia].
      * destruct (getConnection_resume_opened w db' a u) as [H1 H2].
        destruct (getConnection_resume env w db' a u). simpl in *. lia.
      * destruct (getModel_resume_opened w db coll o) as [H1 H2].
        destruct (getModel_resume w db coll o). simpl in *. lia.
    + lia.
Qed.

Lemma step_pool_work s i :
  (opened (step_pool env s i).1 + sum_list (opens_left <$> (step_pool env s i).2)
   ≤ opened s.1 + sum_list (opens_left <$> s.2))%nat
  ∧ (compiled (step_pool env s i).1 + sum_list (compiles_left <$> (step_pool env s i).2)
     ≤ compiled s.1 + sum_list (compiles_left <$> s.2))%nat.
Proof.
  destruct s as [w pool]. unfold step_pool. simpl.
  destruct (pool !! i) as [t|] eqn:L; simpl; [|lia].
  destruct (step_task_work w t) as [H1 H2].
  destruct (step_task env w t) as [w1 t']. simpl in *.
  rewrite !list_fmap_insert.
  pose proof (sum_list_insert (opens_left <$> pool) i (opens_left t) (opens_left t')) as S1.
  pose proof (sum_list_insert (compiles_left <$> pool) i (compiles_left t)
                (compiles_left t')) as S2.
  rewrite list_lookup_fmap, L in S1, S2. specialize (S1 eq_refl). specialize (S2 eq_refl).
  lia.
Qed.

Lemma run_work schedule s :
  (opened (run env s schedule).1 + sum_list (opens_left <$> (run env s schedule).2)
   ≤ opened s.1 + sum_list (opens_left <$> s.2))%nat
  ∧ (compiled (run env s schedule).1 + sum_list (compiles_left <$> (run env s schedule).2)
     ≤ compiled s.1 + sum_list (compiles_left <$> s.2))%nat.
Proof.
  revert s. induction schedule as [|i schedule IH]; intros s.
  - rewrite run_nil. lia.
  - rewrite run_cons. destruct (IH (step_pool env s i)) as [H1 H2].
    destruct (step_pool_work s i) as [H3 H4]. lia.
Qed.

(** Under every schedule, however often each call is given a turn, a pool of
    calls makes at most one connection attempt and compiles at most one model
    per call. *)
Theorem one_attempt_per_call w pool schedule :
  (opened (run env (w, pool) schedule).1 ≤ opened w + length pool)%nat
  ∧ (compiled (run env (w, pool) schedule).1 ≤ compiled w + length pool)%nat.
Proof.
  destruct (run_work schedule (w, pool)) as [H1 H2]. simpl in *.
  assert (B1 : (sum_list (opens_left <$> pool) ≤ length pool)%nat).
  { rewrite <-(length_fmap opens_left). apply sum_list_le_length.
    intros x Hx. apply list_elem_of_fmap in Hx as (t & -> & _).
    destruct t as [[]|[| ? ? []|]]; simpl; lia. }
  assert (B2 : (sum_list (compiles_left <$> pool) ≤ length pool)%nat).
  { rewrite <-(length_fmap compiles_left). apply sum_list_le_length.
    intros x Hx. apply list_elem_of_fmap in Hx as (t & -> & _).
    destruct t as [[]|[]]; simpl; lia. }
  lia.
Qed.

End Schedules.

Section ScheduleInvariant.

Variable env : Env.

Lemma caches_ok_opened w n : caches_ok env w -> caches_ok env (set_opened n w).
Proof. by apply caches_ok_same. Qed.

Lemma step_connection_ok w db c :
  caches_ok env w -> connection_call_ok env db c ->
  caches_ok env (step_connection env w c).1
  ∧ connection_call_ok env db (step_connection env w c).2.
Proof.
  intros Hok Hc. destruct c as [db'|db' a u|o]; simpl in *.
  - subst db'. unfold getConnection_enter.
    destruct (truthy (js_get (uriMap env) db)) eqn:H1; simpl; [|done].
    destruct (truthy (js_get (connections w) db)) eqn:H2; simpl.
    + split; [done|].
      destruct (js_get (connections w) db) as [| | |c|] eqn:E; try done.
      unfold js_get in E. destruct (connections w !! db) as [v|] eqn:L.
      * subst v. destruct Hok as [Hcs _]. by apply Hcs in L as [? _].
      * by destruct (inherited db).
    + split; [by apply caches_ok_opened|done].
  - destruct Hc as (-> & -> & Ht). unfold getConnection_resume.
    destruct (createConnection _ _ _) as [c|e] eqn:E; simpl; [|done].
    apply createConnection_Returned in E as (uri & Huri & _ & ->).
    assert (Hdb : configured env db).
    { exists uri. split; [done|]. apply truthy_VString. by rewrite <-Huri. }
    rewrite js_get_insert. split; [|done].
    destruct Hok as [Hcs Hms]. split; [|exact Hms].
    intros k v. simpl. destruct (decide (db = k)) as [<-|Hne].
    + rewrite lookup_insert_eq. intros [= <-]. eauto.
    + rewrite lookup_insert_ne by done. apply Hcs.
  - done.
Qed.

Lemma step_task_ok w t :
  caches_ok env w -> task_ok env t ->
  caches_ok env (step_task env w t).1 ∧ task_ok env (step_task env w t).2.
Proof.
  intros Hok Ht. destruct t as [c|m].
  - destruct c as [db|db a u|o].
    + pose proof (step_connection_ok w db (ConnEnter db) Hok eq_refl) as [H1 H2].
      simpl in *. destruct (getConnection_enter env w db) as [w1 [[a u]|o]];
        simpl in *; split; done.
    + pose proof (step_connection_ok w db (ConnAwait db a u) Hok Ht) as [H1 H2].
      simpl in *. by destruct (getConnection_resume env w db a u).
    + done.
  - destruct m as [db coll|db coll inner|o].
    + simpl. destruct (truthy (js_get (models w) (modelKey db coll))) eqn:H; simpl.
      * split; [done|].
        destruct (models w !! modelKey db coll) as [v|] eqn:L;
          [|by rewrite js_get_models_None in H].
        rewrite (js_get_own _ _ _ L). destruct Hok as [_ Hms].
        apply Hms in L as (db' & m & ? & _ & -> & ? & ?). eauto 10.
      * pose proof (step_connection_ok w db (ConnEnter db) Hok eq_refl) as [H1 H2].
        simpl in *. by destruct (getConnection_enter env w db) as [w1 [[a u]|o]].
    + destruct inner as [db'|db' a u|o].
      * pose proof (step_connection_ok w db (ConnEnter db') Hok Ht) as [H1 H2].
        simpl in *. by destruct (getConnection_enter env w db') as [w1 [[a u]|o]].
      * pose proof (step_connection_ok w db (ConnAwait db' a u) Hok Ht) as [H1 H2].
        simpl in *. by destruct (getConnection_resume env w db' a u).
      * simpl in *.
        destruct (getModel_resume w db coll o) as [w1 [v|e]] eqn:E; simpl.
        -- apply getModel_resume_Returned in E as (c & -> & -> & -> & ->).
           simpl in Ht. split; [|eauto 10].
           destruct Hok as [Hcs Hms]. split; [exact Hcs|].
           intros k v. simpl.
           destruct (decide (modelKey db "Products" = k)) as [<-|Hne].
           ++ rewrite lookup_insert_eq. intros [= <-]. eauto 10.
           ++ rewrite lookup_insert_ne by done. apply Hms.
        -- apply getModel_resume_Thrown in E. by subst.
    + done.
Qed.

Lemma step_pool_ok s i :
  caches_ok env s.1 -> Forall (task_ok env) s.2 ->
  caches_ok env (step_pool env s i).1 ∧ Forall (task_ok env) (step_pool env s i).2.
Proof.
  destruct s as [w pool]. simpl. intros Hok Hp. unfold step_pool. simpl.
  destruct (pool !! i) as [t|] eqn:L; simpl; [|done].
  assert (Ht : task_ok env t) by (by eapply Forall_lookup_1).
  destruct (step_task_ok w t Hok Ht) as [H1 H2].
  destruct (step_task env w t) as [w1 t']. simpl in *.
  split; [done|]. by apply Forall_insert.
Qed.

Lemma run_ok schedule s :
  caches_ok env s.1 -> Forall (task_ok env) s.2 ->
  caches_ok env (run env s schedule).1 ∧ Forall (task_ok env) (run env s schedule).2.
Proof.
  revert s. induction schedule as [|i schedule IH]; intros s Hok Hp; [done|].
  rewrite run_cons. destruct (step_pool_ok s i Hok Hp). by apply IH.
Qed.

Lemma unstarted_task_ok t : unstarted t = true -> task_ok env t.
Proof. by destruct t as [[]|[]]. Qed.

(** Overlapping calls cannot make the caches hold anything else than calls
    in sequence can.  Start any number of fresh calls in a reachable state
    and give them turns in any order: the connection cache holds keys of
    [uriMap] only, the accessor cache holds the key of [Products] under such
    a key only, and every call of [getModel] that has returned has returned a
    model of [Products] with the product schema. *)
Theorem any_schedule_keeps_caches w pool schedule :
  reachable env w -> Forall (fun t => unstarted t = true) pool ->
  (forall k, is_Some (connections (run env (w, pool) schedule).1 !! k) ->
     k = "ProductsDB" ∨ k = "UsersEmployeesDB")
  ∧ (forall k, is_Some (models (run env (w, pool) schedule).1 !! k) ->
       k = modelKey "ProductsDB" "Products"
       ∨ k = modelKey "UsersEmployeesDB" "Products")
  ∧ (forall i v,
       (run env (w, pool) schedule).2 !! i = Some (TModel (ModelSettled (Returned v))) ->
       exists m, v = VModel m ∧ model_collection m = "Products"
         ∧ model_schema m = productSchema).
Proof.
  intros Hr Hp.
  destruct (run_ok schedule (w, pool)) as [[Hcs Hms] Hts]; simpl.
  { by apply reachable_caches_ok. }
  { eapply Forall_impl; [exact Hp|]. apply unstarted_task_ok. }
  repeat split.
  - intros k [v L]. apply Hcs in L as [Hdb _]. by eapply configured_names.
  - intros k [v L]. apply Hms in L as (db & m & Hdb & -> & _).
    apply configured_names in Hdb as [-> | ->]; eauto.
  - intros i v L. eapply Forall_lookup_1 in L; [|exact Hts].
    simpl in L. destruct L as (db & m & _ & -> & ? & ?). eauto.
Qed.

End ScheduleInvariant.

Lemma any_schedule_keeps_caches_witness :
  (forall k,
     is_Some (connections
                (run online
                   (one_widget,
                    [TModel (ModelEnter "UsersEmployeesDB" "Products");
                     TModel (ModelEnter "UsersEmployeesDB" "Products");
                     TConnection (ConnEnter "constructor")])
                   [0; 1; 2; 0; 0; 1; 1]).1 !! k) ->
     k = "ProductsDB" ∨ k = "UsersEmployeesDB")
  ∧ (forall k,
       is_Some (models
                  (run online
                     (one_widget,
                      [TModel (ModelEnter "UsersEmployeesDB" "Products");
                       TModel (ModelEnter "UsersEmployeesDB" "Products");
                       TConnection (ConnEnter "constructor")])
                     [0; 1; 2; 0; 0; 1; 1]).1 !! k) ->
       k = modelKey "ProductsDB" "Products"
       ∨ k = modelKey "UsersEmployeesDB" "Products")
  ∧ (forall i v,
       (run online
          (one_widget,
           [TModel (ModelEnter "UsersEmployeesDB" "Products");
            TModel (ModelEnter "UsersEmployeesDB" "Products");
            TConnection (ConnEnter "constructor")])
          [0; 1; 2; 0; 0; 1; 1]).2 !! i
       = Some (TModel (ModelSettled (Returned v))) ->
       exists m, v = VModel m ∧ model_collection m = "Products"
         ∧ model_schema m = productSchema).
Proof.
  apply (any_schedule_keeps_caches online one_widget).
  - apply (reachable_serve online init
             (POST_insert "ProductsDB" "Products"
                (JObject [("document", JObject widget)]))).
    apply reachable_init.
  - repeat constructor.
Defined.

(** ** Requests on a cached accessor *)

Section Reuse.

Variable env : Env.

(** A request for a pair whose accessor is cached leaves the registry as it
    was, on every route: it makes no connection attempt, compiles no model
    and changes neither cache. *)
Theorem requests_reuse_cached_accessor w r :
  truthy (js_get (models w) (modelKey (request_pair r).1 (request_pair r).2)) = true ->
  same_registry w (serve env w r).1.
Proof.
  intros Ht.
  assert (E : getModel env w (request_pair r).1 (request_pair r).2
              = (w, Returned (js_get (models w)
                                (modelKey (request_pair r).1 (request_pair r).2))))
    by (by apply getModel_cached).
  destruct r as [db coll|db coll req_body|db coll id|db coll id req_body];
    simpl in E |- *.
  - unfold get_find, try_catch. unfold_async. rewrite E. simpl.
    destruct (js_get _ _); apply same_registry_refl.
  - unfold post_insert, try_catch. unfold_async. rewrite E. simpl.
    destruct (json_truthy (json_member req_body "document")).
    + destruct (js_get _ _) as [| | | |m]; simpl; try apply same_registry_refl.
      pose proof (insertOne_same_registry env w m
                    (default JNull (json_member req_body "document"))) as H.
      by destruct (insertOne _ _ _ _) as [w1 [e|d]].
    + destruct (_ && _); [|apply same_registry_refl].
      destruct (js_get _ _) as [| | | |m]; simpl; try apply same_registry_refl.
      pose proof (insertMany_same_registry env w m
                    (items_of (json_member req_body "documents"))) as H.
      by destruct (insertMany _ _ _ _) as [w1 [e|ds]].
  - unfold delete_by_id, try_catch. unfold_async. rewrite E. simpl.
    destruct (js_get _ _) as [| | | |m]; simpl; try apply same_registry_refl.
    pose proof (deleteById_same_registry w m id) as H.
    by destruct (deleteById w m id) as [w1 [d|]].
  - unfold put_update, try_catch. cbv zeta.
    destruct (json_truthy (json_member req_body "update")); simpl;
      [|apply same_registry_refl].
    unfold_async. rewrite E. simpl.
    destruct (js_get _ _) as [| | | |m]; simpl; try apply same_registry_refl.
    pose proof (updateById_same_registry w m id
                  (default JNull (json_member req_body "update"))) as H.
    by destruct (updateById _ _ _ _) as [w1 [e|[d|]]].
Qed.

End Reuse.

Lemma requests_reuse_cached_accessor_witness :
  same_registry one_widget
    (serve online one_widget
       (POST_insert "ProductsDB" "Products"
          (JObject [("documents", JArray [JObject widget; JObject widget])]))).1.
Proof.
  apply (requests_reuse_cached_accessor online one_widget
           (POST_insert "ProductsDB" "Products"
              (JObject [("documents", JArray [JObject widget; JObject widget])]))).
  reflexivity.
Defined.

Lemma accessor_bound_to_cached_connection_witness :
  exists m c,
    VModel products_model = VModel m ∧ "Products" = "Products"
    ∧ connections one_widget !! "ProductsDB" = Some (VConnection c)
    ∧ model_connection m = c
    ∧ js_get (uriMap online) "ProductsDB" = VString (conn_uri c)
    ∧ model_schema m = productSchema
    ∧ collection_of m = (conn_uri c, "Products").
Proof.
  apply (accessor_bound_to_cached_connection online one_widget "ProductsDB" "Products").
  - apply (reachable_serve online init
             (POST_insert "ProductsDB" "Products"
                (JObject [("document", JObject widget)]))).
    apply reachable_init.
  - vm_compute. reflexivity.
Defined.

Lemma caches_only_grow_witness :
  connections one_widget
    ⊆ connections (perform_all online one_widget
                     [CallGetModel "UsersEmployeesDB" "Products";
                      CallServe (GET_find "InventoryDB" "Products");
                      CallStartServer])
  ∧ models one_widget
    ⊆ models (perform_all online one_widget
                [CallGetModel "UsersEmployeesDB" "Products";
                 CallServe (GET_find "InventoryDB" "Products");
                 CallStartServer])
  ∧ (opened one_widget
     ≤ opened (perform_all online one_widget
                 [CallGetModel "UsersEmployeesDB" "Products";
                  CallServe (GET_find "InventoryDB" "Products");
                  CallStartServer]))%nat
  ∧ (compiled one_widget
     ≤ compiled (perform_all online one_widget
                   [CallGetModel "UsersEmployeesDB" "Products";
                    CallServe (GET_find "InventoryDB" "Products");
                    CallStartServer]))%nat.
Proof.
  apply (caches_only_grow online one_widget).
  apply (reachable_serve online init
           (POST_insert "ProductsDB" "Products"
              (JObject [("document", JObject widget)]))).
  apply reachable_init.
Defined.

Lemma unset_variable_is_unmapped_witness :
  getConnection unset init "ProductsDB"
  = (init, Thrown (UnconfiguredDatabase "ProductsDB"))
  ∧ startServer unset init = (init, Exited 1 (UnconfiguredDatabase "ProductsDB")).
Proof.
  apply (proj1 (unset_variable_is_unmapped unset init)). left. reflexivity.
Defined.

Lemma startServer_first_failure_witness :
  startServer offline init
  = (set_opened 1 init,
     Exited 1 (ConnectionError 0 "mongodb://client.example/mecazon")).
Proof.
  apply (proj1 (startServer_first_failure offline init)). reflexivity.
Defined.
